(** * placeholder.py: validators, dimension resolver, cache check, renderer

    A shallow embedding of [src/placeholder.py].  Python integers are [Z],
    [str] values are [string] (inspected character by character as
    [list ascii]), [None]-able arguments are [option], the [BOUNDS] dict is
    a [gmap], and the code that touches the file system or the logger runs
    in a small state-and-exception monad over a [world]. *)

From Stdlib Require Import ZArith Lia List Ascii String Bool.
From stdpp Require Import base option gmap strings list pretty.

Local Open Scope Z_scope.

(** ** Named tuples and the mode enumeration *)

Module BoundTuple.
Record t := mk { lower : Z; upper : Z }.
End BoundTuple.

Module RGBTuple.
Record t := mk { r : Z; g : Z; b : Z }.
End RGBTuple.

Module RatioTuple.
Record t := mk { width : Z; height : Z }.
End RatioTuple.

#[global] Instance BoundTuple_inhabited : Inhabited BoundTuple.t :=
  populate (BoundTuple.mk 0 0).

(** [StrEnum] members are strings; [auto()] yields the lower-cased name. *)
Module DimmentionOptions.
Definition SIZE : string := "size".
Definition RATIO : string := "ratio".
End DimmentionOptions.

Definition BOUNDS : gmap string BoundTuple.t :=
  <["width" := BoundTuple.mk 32 4000]>
    (<["height" := BoundTuple.mk 32 4000]>
       (<["ratio" := BoundTuple.mk 1 30]> ∅)).

(** ** Validators *)

Definition validate_range (value : Z) (bounds : BoundTuple.t) : bool :=
  (BoundTuple.lower bounds <=? value) && (value <=? BoundTuple.upper bounds).

(** The argument is what argparse leaves in [args.ratio]: [None] when the
    flag is absent (not a list), otherwise the list of integers given. *)
Definition validate_ratio (value : option (list Z)) : bool :=
  match value with
  | None => false
  | Some l =>
      if negb (length l =? 2)%nat then false
      else forallb (fun v => validate_range v (BOUNDS !!! "ratio")) l
  end.

(** *** The regular-expression fragment used by [validate_hex_color]

    A backtracking matcher in continuation-passing style.  [pos] is the
    number of characters consumed so far (for [^]); the continuation
    receives the position and the rest of the subject. *)
Module Re.
Inductive regex :=
| Bol                                   (* ^ *)
| Eol                                   (* $ *)
| Lit (c : ascii)
| Class (ranges : list (ascii * ascii)) (* [a-bc-d...] *)
| Seq (r1 r2 : regex)
| Rep (r : regex) (lo hi : nat).        (* r{lo,hi} *)

Definition in_range (c : ascii) (rg : ascii * ascii) : bool :=
  (nat_of_ascii (fst rg) <=? nat_of_ascii c)%nat
  && (nat_of_ascii c <=? nat_of_ascii (snd rg))%nat.

Definition in_class (ranges : list (ascii * ascii)) (c : ascii) : bool :=
  existsb (in_range c) ranges.

Definition cont := nat -> list ascii -> bool.

(** [f{lo,hi}]: one more repetition is tried first (greedy), then
    stopping here if the lower bound is already met. *)
Fixpoint rep (f : nat -> list ascii -> cont -> bool) (lo hi : nat)
    (pos : nat) (s : list ascii) (k : cont) : bool :=
  match hi with
  | O => (lo =? 0)%nat && k pos s
  | S hi' =>
      f pos s (fun pos' s' => rep f (Nat.pred lo) hi' pos' s' k)
      || ((lo =? 0)%nat && k pos s)
  end.

(** Without [re.MULTILINE], [^] matches at position 0 only and [$]
    matches at the end of the subject or just before a newline that is
    its last character. *)
Fixpoint run (re : regex) (pos : nat) (s : list ascii) (k : cont) : bool :=
  match re with
  | Bol => (pos =? 0)%nat && k pos s
  | Eol =>
      match s with
      | [] => k pos s
      | [c] => (Ascii.eqb c "010"%char) && k pos s
      | _ => false
      end
  | Lit c =>
      match s with
      | x :: s' => (Ascii.eqb x c) && k (S pos) s'
      | [] => false
      end
  | Class ranges =>
      match s with
      | x :: s' => in_class ranges x && k (S pos) s'
      | [] => false
      end
  | Seq r1 r2 => run r1 pos s (fun pos' s' => run r2 pos' s' k)
  | Rep r lo hi => rep (run r) lo hi pos s k
  end.

(** [re.match(pattern, subject)] as a truth value: the pattern must
    match starting at position 0; it need not reach the end. *)
Definition match_ (pattern : regex) (subject : string) : bool :=
  run pattern 0%nat (list_ascii_of_string subject) (fun _ _ => true).
End Re.

Definition hexdigit_class : list (ascii * ascii) :=
  [("0", "9"); ("a", "f"); ("A", "F")]%char.

(** [^#(?:[0-9a-fA-F]{3,4}){1,2}$] *)
Definition hex_color_pattern : Re.regex :=
  Re.Seq Re.Bol
    (Re.Seq (Re.Lit "#")
       (Re.Seq (Re.Rep (Re.Rep (Re.Class hexdigit_class) 3 4) 1 2)
          Re.Eol)).

(** The source returns the match object or [None]; callers only test its
    truth value, which is what is modelled. *)
Definition validate_hex_color (value : string) : bool :=
  Re.match_ hex_color_pattern value.

(** ** Dimension resolver *)

Inductive exn :=
| ZeroDivisionError
| ValueError
| AttributeError
| TypeError
| FileExistsError
| FileNotFoundError
| NotADirectoryError
| IsADirectoryError
| OSError.

Inductive res (A : Type) :=
| Ok (a : A)
| Raise (e : exn).
Arguments Ok {A} a.
Arguments Raise {A} e.

(** Python's [//] on integers: floor division, raising on a zero divisor. *)
Definition floordiv (a b : Z) : res Z :=
  if b =? 0 then Raise ZeroDivisionError else Ok (a / b).

Definition default_base_dimmention : Z := 100.

Definition dimmentions_from_ratio (ratio : RatioTuple.t) (base_dimmention : Z)
  : res (Z * Z) :=
  match
    (if base_dimmention * RatioTuple.width ratio
        >? BoundTuple.upper (BOUNDS !!! "width")
     then floordiv (BoundTuple.upper (BOUNDS !!! "width")) (RatioTuple.width ratio)
     else Ok base_dimmention)
  with
  | Raise e => Raise e
  | Ok base_dimmention =>
      match
        (if base_dimmention * RatioTuple.height ratio
            >? BoundTuple.upper (BOUNDS !!! "height")
         then floordiv (BoundTuple.upper (BOUNDS !!! "height"))
                (RatioTuple.height ratio)
         else Ok base_dimmention)
      with
      | Raise e => Raise e
      | Ok base_dimmention =>
          Ok (base_dimmention * RatioTuple.width ratio,
              base_dimmention * RatioTuple.height ratio)
      end
  end.

(** ** Colour parsing: [int(args.color.replace("#", "0x"), 16)] *)

(** [str.replace(old, new)] for a one-character [old]: every occurrence. *)
Definition str_replace (old : ascii) (new : string) (s : string) : string :=
  string_of_list_ascii
    (flat_map (fun c => if Ascii.eqb c old then list_ascii_of_string new else [c])
       (list_ascii_of_string s)).

(** [int(text, 16)]: surrounding whitespace is stripped, a sign and a
    [0x]/[0X] prefix are optional, single underscores may separate digits
    (and follow the prefix); anything else is a [ValueError].  On an ASCII
    string the whitespace stripped is tab, newline, vertical tab, form
    feed, carriage return and space. *)
Module PyInt.
Definition is_space (c : ascii) : bool :=
  let n := nat_of_ascii c in
  ((9 <=? n) && (n <=? 13) || (n =? 32))%nat.

Definition digit16 (c : ascii) : option Z :=
  let n := Z.of_nat (nat_of_ascii c) in
  if (48 <=? n) && (n <=? 57) then Some (n - 48)
  else if (97 <=? n) && (n <=? 102) then Some (n - 87)
  else if (65 <=? n) && (n <=? 70) then Some (n - 55)
  else None.

Fixpoint lstrip (s : list ascii) : list ascii :=
  match s with
  | c :: s' => if is_space c then lstrip s' else s
  | [] => []
  end.

(** The digits after the first one; returns the value and what follows
    the digit run, or [None] on a misplaced underscore. *)
Fixpoint digits (acc : Z) (s : list ascii) : option (Z * list ascii) :=
  match s with
  | [] => Some (acc, [])
  | c :: s' =>
      match digit16 c with
      | Some d => digits (acc * 16 + d) s'
      | None =>
          if Ascii.eqb c "_" then
            match s' with
            | c2 :: s'' =>
                match digit16 c2 with
                | Some d => digits (acc * 16 + d) s''
                | None => None
                end
            | [] => None
            end
          else Some (acc, s)
      end
  end.

Definition skip_sign (s : list ascii) : bool * list ascii :=
  match s with
  | c :: s' =>
      if Ascii.eqb c "-" then (true, s')
      else if Ascii.eqb c "+" then (false, s')
      else (false, s)
  | [] => (false, s)
  end.

Definition skip_prefix16 (s : list ascii) : list ascii :=
  match s with
  | z :: x :: s' =>
      if Ascii.eqb z "0" && (Ascii.eqb x "x" || Ascii.eqb x "X") then
        match s' with
        | u :: s'' => if Ascii.eqb u "_" then s'' else s'
        | [] => s'
        end
      else s
  | _ => s
  end.

Definition int16 (text : string) : res Z :=
  let (neg, s) := skip_sign (lstrip (list_ascii_of_string text)) in
  match skip_prefix16 s with
  | [] => Raise ValueError
  | c :: s' =>
      match digit16 c with
      | None => Raise ValueError
      | Some d =>
          match digits d s' with
          | None => Raise ValueError
          | Some (n, rest) =>
              if forallb is_space rest then Ok (if neg then - n else n)
              else Raise ValueError
          end
      end
  end.
End PyInt.

(** ** File system, logger and the effect monad *)

(** A path is its list of components from a fixed origin; [p / name] is
    [p ++ [name]].  A node is a directory or a regular file with its
    bytes. *)
Abbreviation path := (list string).

Inductive node :=
| Dir
| File (data : list Byte.byte).

Inductive level := INFO | ERROR.

(** [fs] is the file system apart from the log file [logs/usage.log];
    [log] is the content of that file: the sequence of records handed to
    the logger, which appends them. *)
Record world := World { fs : gmap path node; log : list (level * string) }.

Definition M (A : Type) : Type := world -> res A * world.

#[global] Instance M_ret : MRet M := fun A a w => (Ok a, w).
#[global] Instance M_bind : MBind M := fun A B f m w =>
  match m w with
  | (Ok a, w') => f a w'
  | (Raise e, w') => (Raise e, w')
  end.

Definition raise {A} (e : exn) : M A := fun w => (Raise e, w).

(** Running a read-only inspection of the file system. *)
Definition inspect {A} (f : gmap path node -> res A) : M A :=
  fun w => (f (fs w), w).

Definition emit (l : level) (msg : string) (w : world) : world :=
  World (fs w) (log w ++ [(l, msg)]).

Definition logger_info (msg : string) : M unit := fun w => (Ok tt, emit INFO msg w).
Definition logger_error (msg : string) : M unit := fun w => (Ok tt, emit ERROR msg w).

Definition is_dir (t : gmap path node) (p : path) : bool :=
  match t !! p with Some Dir => true | _ => false end.

Definition is_file (t : gmap path node) (p : path) : bool :=
  match t !! p with Some (File _) => true | _ => false end.

(** [Path.name]: the last component. *)
Definition Path_name (p : path) : string := default EmptyString (last p).

Definition Path_parent (p : path) : path := removelast p.

Definition as_posix (p : path) : string := String.concat "/" p.

(** [Path.iterdir()]: the entries directly below [p], in no particular
    order; raises unless [p] is a directory. *)
Definition iterdir (t : gmap path node) (p : path) : res (list path) :=
  match t !! p with
  | Some Dir =>
      Ok (filter (fun q => q <> [] /\ Path_parent q = p) (fst <$> map_to_list t))
  | Some (File _) => Raise NotADirectoryError
  | None => Raise FileNotFoundError
  end.

(** [Path.mkdir(exist_ok=True, parents=True)]: every missing prefix of the
    path is created; a regular file in the way raises. *)
Fixpoint mkdirs (done : path) (todo : list string) : M unit :=
  fun w =>
    let continue w' :=
      match todo with
      | [] => (Ok tt, w')
      | n :: todo' => mkdirs (done ++ [n]) todo' w'
      end in
    match fs w !! done with
    | Some (File _) =>
        (Raise (match todo with [] => FileExistsError | _ => NotADirectoryError end), w)
    | Some Dir => continue w
    | None => continue (World (<[done := Dir]> (fs w)) (log w))
    end.

Definition Path_mkdir (p : path) : M unit := mkdirs [] p.

(** [open(p, "w+b")]: the parent must be a directory and [p] must not be
    one; the file is created, or emptied when it exists.  The answer
    tells whether it was created. *)
Definition open_wb (p : path) : M bool :=
  fun w =>
    match p with
    | [] => (Raise IsADirectoryError, w)
    | _ =>
        match fs w !! Path_parent p with
        | None => (Raise FileNotFoundError, w)
        | Some (File _) => (Raise NotADirectoryError, w)
        | Some Dir =>
            match fs w !! p with
            | Some Dir => (Raise IsADirectoryError, w)
            | Some (File _) => (Ok false, World (<[p := File []]> (fs w)) (log w))
            | None => (Ok true, World (<[p := File []]> (fs w)) (log w))
            end
        end
    end.

(** ** Cache check *)

(** The text of the file name for two dimensions. *)
Definition artifact_name (width height : Z) : string :=
  pretty width +:+ "_x_" +:+ pretty height +:+ ".jpg".

(** Writing an [int] in decimal, as an f-string does: a [ValueError] when
    it has more than 4300 digits. *)
Definition str_int (n : Z) : res string :=
  if 10 ^ 4300 <=? Z.abs n then Raise ValueError else Ok (pretty n).

(** [f"{width}_x_{height}.jpg"] for arbitrary integers. *)
Definition format_artifact_name (width height : Z) : res string :=
  match str_int width with
  | Raise e => Raise e
  | Ok sw =>
      match str_int height with
      | Raise e => Raise e
      | Ok sh => Ok (sw +:+ "_x_" +:+ sh +:+ ".jpg")
      end
  end.

Definition placeholder_exists (width height : Z) (save_root : path)
    (t : gmap path node) : res bool :=
  if negb (is_dir t save_root) then Ok false
  else
    match format_artifact_name width height with
    | Raise e => Raise e
    | Ok name =>
        match iterdir t save_root with
        | Raise e => Raise e
        | Ok entries =>
            Ok (bool_decide
                  (name ∈ (Path_name <$>
                             filter (fun f => is_file t f = true) entries)))
        end
    end.

(** ** Image renderer *)

Module Image.
(** An ["RGB"] bitmap: its size and its pixels in row-major order. *)
Record t := mk { width : Z; height : Z; data : list RGBTuple.t }.

(** [Image.new("RGB", (width, height), color)] *)
Definition new (size : Z * Z) (color : RGBTuple.t) : res t :=
  if (fst size <? 0) || (snd size <? 0) then Raise ValueError
  else Ok (mk (fst size) (snd size)
             (replicate (Z.to_nat (fst size * snd size)) color)).
End Image.

(** The operations of the imaging library whose code is outside the
    repository.  Drawing works in place on the pixel buffer of an image
    (it cannot change its size); filtering returns a new image.  The JPEG
    encoder refuses an image with an empty side ([ValueError]), encodes
    every image whose sides are between 1 and 65500 pixels, and fails on a
    side above 65535, which the format cannot record. *)
Class PIL := {
  draw_line : Z -> Z -> list RGBTuple.t -> Z * Z * Z * Z -> RGBTuple.t -> Z
              -> list RGBTuple.t;
  GaussianBlur : Z -> Image.t -> Image.t;
  jpeg_encode : Image.t -> res (list Byte.byte);
  jpeg_encode_empty : forall im,
    Image.width im = 0 \/ Image.height im = 0 ->
    jpeg_encode im = Raise ValueError;
  jpeg_encode_fits : forall im,
    1 <= Image.width im <= 65500 -> 1 <= Image.height im <= 65500 ->
    exists data, jpeg_encode im = Ok data;
  jpeg_encode_limit : forall im,
    65535 < Image.width im \/ 65535 < Image.height im ->
    exists e, jpeg_encode im = Raise e
}.

Module Namespace.
(** The result of [parser.parse_args()]. *)
Record t := mk {
  width : Datatypes.option Z;
  height : Datatypes.option Z;
  ratio : Datatypes.option (list Z);
  color : string;
  out : path;
  option : string
}.
End Namespace.

(** Truth value of an [int]-or-[None] argument. *)
Definition truthy (v : option Z) : bool :=
  match v with
  | Some n => negb (n =? 0)
  | None => false
  end.

(** [repr] of [args.ratio] as interpolated in the log message. *)
Definition repr_ratio (v : option (list Z)) : string :=
  match v with
  | None => "None"
  | Some l => "[" +:+ String.concat ", " (pretty <$> l) +:+ "]"
  end.

Section Renderer.
Context `{PIL}.

(** [ImageDraw(image).line(xy, fill, width)] *)
Definition ImageDraw_line (im : Image.t) (xy : Z * Z * Z * Z)
    (fill : RGBTuple.t) (width : Z) : Image.t :=
  Image.mk (Image.width im) (Image.height im)
    (draw_line (Image.width im) (Image.height im) (Image.data im) xy fill width).

(** [image.filter(ImageFilter.GaussianBlur(radius))] *)
Definition Image_filter (im : Image.t) (radius : Z) : Image.t :=
  GaussianBlur radius im.

(** [image.save(path, format="jpeg")]: the file is opened first, then
    the image is encoded into it.  When the encoder raises, a file that
    the call created is removed again and one that existed stays
    emptied. *)
Definition Image_save (im : Image.t) (p : path) : M unit :=
  fun w =>
    match open_wb p w with
    | (Raise e, w') => (Raise e, w')
    | (Ok created, w1) =>
        match jpeg_encode im with
        | Ok data => (Ok tt, World (<[p := File data]> (fs w1)) (log w1))
        | Raise e =>
            (Raise e,
             if created then World (delete p (fs w1)) (log w1) else w1)
        end
    end.
End Renderer.

Module ImageGenerator.
Record t := mk {
  width : Z;
  height : Z;
  color : RGBTuple.t;
  image : Datatypes.option Image.t;
  save_root : path
}.

Section Methods.
Context `{PIL}.

Definition __init__ (width height color : Z) (save_root : path) : t :=
  mk width height
    (RGBTuple.mk (Z.land (Z.shiftr color 16) 255)
       (Z.land (Z.shiftr color 8) 255)
       (Z.land color 255))
    None save_root.

Definition inverted_color (self : t) : RGBTuple.t :=
  RGBTuple.mk (255 - RGBTuple.r (color self))
    (255 - RGBTuple.g (color self))
    (255 - RGBTuple.b (color self)).

Definition set_image (self : t) (im : Image.t) : t :=
  mk (width self) (height self) (color self) (Some im) (save_root self).

Definition _setup_frame (self : t) : M t :=
  match Image.new (width self, height self) (color self) with
  | Raise e => raise e
  | Ok im => mret (set_image self im)
  end.

Definition _setup_cross (self : t) : M t :=
  match image self with
  | None => raise AttributeError
  | Some im =>
      let _width := if Image.width im <? 1000 then 2 else 3 in
      let im := ImageDraw_line im (0, 0, width self, height self)
                  (inverted_color self) _width in
      let im := ImageDraw_line im (0, height self, width self, 0)
                  (inverted_color self) _width in
      mret (set_image self im)
  end.

(** The filtered image is computed and dropped; [self.image] is not
    assigned. *)
Definition _smoothen_image (self : t) : M t :=
  match image self with
  | None => raise AttributeError
  | Some im =>
      let _ := Image_filter im 1 in
      mret self
  end.

(** The two integers written into the name are the sides of an image,
    machine integers far below the limit of [str_int]. *)
Definition _save_image (self : t) : M t :=
  match image self with
  | None => raise AttributeError
  | Some im =>
      let _save_path :=
        save_root self ++ [artifact_name (Image.width im) (Image.height im)] in
      Image_save im _save_path;;
      logger_info ("Saved placeholder image @ " +:+ as_posix _save_path);;
      mret self
  end.

Definition start (self : t) : M t :=
  self ← _setup_frame self;
  self ← _setup_cross self;
  self ← _smoothen_image self;
  _save_image self.
End Methods.
End ImageGenerator.

Section Entry.
Context `{PIL}.

(** ** Command entry point, after [parser.parse_args()]

    [main_match] is the [match args.option] statement: [inl status]
    stands for its [return status], [inr (width, height)] for falling
    through with the two variables bound.  The result of [main] is [None]
    (falling off the end, or the bare [return] on a cache hit) or
    [Some 1]. *)
Definition main_match (args : Namespace.t) : M (Z + Z * Z) :=
    (if String.eqb (Namespace.option args) DimmentionOptions.SIZE then
       if negb (truthy (Namespace.width args) && truthy (Namespace.height args))
       then logger_error "Missing width or height";; mret (inl 1)
       else
         match Namespace.width args, Namespace.height args with
         | Some width, Some height =>
             if negb (validate_range width (BOUNDS !!! "width")
                      && validate_range height (BOUNDS !!! "height"))
             then
               logger_error
                 ("Invalid size " +:+ pretty width +:+ "x" +:+ pretty height);;
               mret (inl 1)
             else mret (inr (width, height))
         | _, _ => raise TypeError
         end
     else if String.eqb (Namespace.option args) DimmentionOptions.RATIO then
       if negb (validate_ratio (Namespace.ratio args))
       then
         logger_error ("Invalid ratio: " +:+ repr_ratio (Namespace.ratio args));;
         mret (inl 1)
       else
         match Namespace.ratio args with
         | None => raise TypeError
         | Some l =>
             match l !! 0%nat, l !! 1%nat with
             | Some rw, Some rh =>
                 match dimmentions_from_ratio (RatioTuple.mk rw rh)
                         default_base_dimmention with
                 | Raise e => raise e
                 | Ok d => mret (inr d)
                 end
             | _, _ =>
                 logger_error "Missing width or height ratio";; mret (inl 1)
             end
         end
     else
       logger_error ("Invalid option " +:+ Namespace.option args);;
       mret (inl 1)).

Definition main (args : Namespace.t) : M (option Z) :=
  dims ← main_match args;
  match dims with
  | inl status => mret (Some status)
  | inr (width, height) =>
      if negb (validate_hex_color (Namespace.color args)) then
        logger_error ("Invalid color " +:+ Namespace.color args);;
        mret (Some 1)
      else
        Path_mkdir (Namespace.out args ++ ["placeholders"]);;
        cached ← inspect (placeholder_exists width height
                            (Namespace.out args ++ ["placeholders"]));
        if (cached : bool) then
          logger_info
            ("Placeholder " +:+ pretty width +:+ "x" +:+ pretty height
             +:+ " already exists in placeholders directory");;
          mret None
        else
            match PyInt.int16 (str_replace "#" "0x" (Namespace.color args)) with
            | Raise e => raise e
            | Ok color =>
                ImageGenerator.start
                  (ImageGenerator.__init__ width height color
                     (Namespace.out args ++ ["placeholders"]));;
                mret None
            end
  end.

(** ** The script: the block under [if __name__ == "__main__"]

    [root] is [Path(__file__).parent.parent].  The log directory is
    created, the logger is configured, and [main()] is called as a
    statement: its value is dropped.  The exit status of the process is 0
    unless an exception escapes (status 1). *)
Definition script (root : path) (args : Namespace.t) (w : world) : Z * world :=
  match Path_mkdir (root ++ ["logs"]) w with
  | (Raise _, w') => (1, w')
  | (Ok _, w') =>
      match main args w' with
      | (Ok _, w'') => (0, w'')
      | (Raise _, w'') => (1, w'')
      end
  end.
End Entry.

(** A small executable instance of the imaging interface, for running the
    renderer and the entry point on concrete inputs: the line marks the
    first pixel, the blur blackens the image, the encoder emits the
    channel bytes of an image whose sides are between 1 and 65500. *)
Definition byte_of_channel (v : Z) : Byte.byte :=
  default Byte.x00 (Byte.of_N (Z.to_N (v mod 256))).

Definition toy_jpeg_encode (im : Image.t) : res (list Byte.byte) :=
  if (Image.width im =? 0) || (Image.height im =? 0) then Raise ValueError
  else if (Image.width im <? 0) || (Image.height im <? 0)
          || (65500 <? Image.width im) || (65500 <? Image.height im)
  then Raise OSError
  else
    Ok (flat_map (fun px => [byte_of_channel (RGBTuple.r px);
                             byte_of_channel (RGBTuple.g px);
                             byte_of_channel (RGBTuple.b px)])
          (Image.data im)).

#[local] Instance toy_PIL : PIL.
Proof.
  refine {|
    draw_line _ _ buf _ fill _ :=
      match buf with
      | _ :: rest => fill :: rest
      | [] => []
      end;
    GaussianBlur _ im :=
      Image.mk (Image.width im) (Image.height im)
        ((fun _ => RGBTuple.mk 0 0 0) <$> Image.data im);
    jpeg_encode := toy_jpeg_encode
  |}.
  - intros im Hz. unfold toy_jpeg_encode.
    destruct Hz as [-> | ->]; [| rewrite orb_true_r]; reflexivity.
  - intros im Hw Hh. unfold toy_jpeg_encode.
    destruct (Z.eqb_spec (Image.width im) 0); [lia |].
    destruct (Z.eqb_spec (Image.height im) 0); [lia |].
    destruct (Z.ltb_spec (Image.width im) 0); [lia |].
    destruct (Z.ltb_spec (Image.height im) 0); [lia |].
    destruct (Z.ltb_spec 65500 (Image.width im)); [lia |].
    destruct (Z.ltb_spec 65500 (Image.height im)); [lia |].
    eexists. reflexivity.
  - intros im Hbig. unfold toy_jpeg_encode.
    destruct (_ || _); [eauto |].
    destruct (Z.ltb_spec (Image.width im) 0); [eauto |].
    destruct (Z.ltb_spec (Image.height im) 0); [eauto |].
    destruct (Z.ltb_spec 65500 (Image.width im)); [eauto |].
    destruct (Z.ltb_spec 65500 (Image.height im)); [eauto |].
    lia.
Defined.

(** * Vocabulary of the statements *)

(** The two successive values of [base_dimmention]. *)
Definition shrunk_for_width (ratio : RatioTuple.t) (base : Z) : Z :=
  if base * RatioTuple.width ratio >? 4000
  then 4000 / RatioTuple.width ratio else base.

Definition shrunk_for_height (ratio : RatioTuple.t) (base : Z) : Z :=
  if base * RatioTuple.height ratio >? 4000
  then 4000 / RatioTuple.height ratio else base.

(** A hexadecimal digit, as the pattern's character class sees it. *)
Definition is_hex (c : ascii) : bool := Re.in_class hexdigit_class c.

(** The number written by a run of hexadecimal digits. *)
Definition hex_step (acc : Z) (c : ascii) : Z :=
  acc * 16 + default 0 (PyInt.digit16 c).

Definition hex_value (ds : list ascii) : Z := fold_left hex_step ds 0.

Definition newline : ascii := "010"%char.

(** The fill colour the renderer ends up with for a colour argument: the
    conversion done in [main] followed by [ImageGenerator.__init__]. *)
Definition fill_color (text : string) : res RGBTuple.t :=
  match PyInt.int16 (str_replace "#" "0x" text) with
  | Raise e => Raise e
  | Ok n => Ok (ImageGenerator.color (ImageGenerator.__init__ 0 0 n []))
  end.

(** The colour a hex colour string denotes, in the words of the
    specification: three or four digits are shorthand (each digit
    doubled), six or eight are the full form, and the alpha digits that
    follow the first three channels are ignored. *)
Definition denoted_rgb (text : string) : option RGBTuple.t :=
  match list_ascii_of_string text with
  | h :: ds =>
      if Ascii.eqb h "#" && forallb is_hex ds then
        match (fun c => default 0 (PyInt.digit16 c)) <$> ds with
        | [r; g; b] | [r; g; b; _] =>
            Some (RGBTuple.mk (17 * r) (17 * g) (17 * b))
        | [r1; r0; g1; g0; b1; b0] | [r1; r0; g1; g0; b1; b0; _; _] =>
            Some (RGBTuple.mk (16 * r1 + r0) (16 * g1 + g0) (16 * b1 + b0))
        | _ => None
        end
      else None
  | [] => None
  end.

(** What follows the digits: nothing, or one final newline. *)
Definition at_end (tl : list ascii) : Prop := tl = [] \/ tl = [newline].

(** The strings the pattern accepts: [#], then 3, 4, 6, 7 or 8
    hexadecimal digits, then the end or a final newline. *)
Definition accepted_shape (l : list ascii) : Prop :=
  exists ds tl,
    l = "#"%char :: ds ++ tl
    /\ forallb is_hex ds = true
    /\ length ds ∈ [3; 4; 6; 7; 8]%nat
    /\ at_end tl.

Section Crossed.
Context `{PIL}.

(** The bitmap after [_setup_frame] and [_setup_cross]. *)
Definition crossed (self : ImageGenerator.t) (frame : Image.t) : Image.t :=
  let _width := if Image.width frame <? 1000 then 2 else 3 in
  ImageDraw_line
    (ImageDraw_line frame
       (0, 0, ImageGenerator.width self, ImageGenerator.height self)
       (ImageGenerator.inverted_color self) _width)
    (0, ImageGenerator.height self, ImageGenerator.width self, 0)
    (ImageGenerator.inverted_color self) _width.
End Crossed.

(** The dimensions the entry point works with once the mode, the sizes or
    the ratio have passed their checks. *)
Inductive resolved (args : Namespace.t) : Z * Z -> Prop :=
| resolved_size (w h : Z) :
    Namespace.option args = "size" ->
    Namespace.width args = Some w -> Namespace.height args = Some h ->
    32 <= w <= 4000 -> 32 <= h <= 4000 ->
    resolved args (w, h)
| resolved_ratio (rw rh : Z) :
    Namespace.option args = "ratio" ->
    Namespace.ratio args = Some [rw; rh] ->
    1 <= rw <= 30 -> 1 <= rh <= 30 ->
    resolved args (100 * rw, 100 * rh).

(** The ways an invocation can fail validation. *)
Inductive validation_failure (args : Namespace.t) : Prop :=
| missing_dimension :
    Namespace.option args = "size" ->
    Namespace.width args = None \/ Namespace.height args = None ->
    validation_failure args
| dimension_out_of_range (w h : Z) :
    Namespace.option args = "size" ->
    Namespace.width args = Some w -> Namespace.height args = Some h ->
    ~ (32 <= w <= 4000 /\ 32 <= h <= 4000) ->
    validation_failure args
| bad_ratio :
    Namespace.option args = "ratio" ->
    (forall rw rh, Namespace.ratio args = Some [rw; rh] ->
                   ~ (1 <= rw <= 30 /\ 1 <= rh <= 30)) ->
    validation_failure args
| bad_color :
    validate_hex_color (Namespace.color args) = false ->
    validation_failure args
| unknown_mode :
    Namespace.option args <> "size" -> Namespace.option args <> "ratio" ->
    validation_failure args.

(** Every entry other than the origin sits in a directory. *)
Definition fs_wf (t : gmap path node) : Prop :=
  map_Forall (fun q _ => q = [] \/ is_dir t (Path_parent q) = true) t.

(** ** Well-formed file systems *)

(** The placeholder for [(wd, ht)] is in place under [out]: the
    placeholders directory and its ancestors are directories and it holds
    the regular file. *)
Definition cached (t : gmap path node) (out : path) (d : Z * Z) : Prop :=
  (forall k : nat, t !! take k (out ++ ["placeholders"]) = Some Dir)
  /\ exists data,
       t !! ((out ++ ["placeholders"]) ++ [artifact_name (fst d) (snd d)])
       = Some (File data).

Definition cache_hit_message (d : Z * Z) : string :=
  "Placeholder " +:+ pretty (fst d) +:+ "x" +:+ pretty (snd d)
  +:+ " already exists in placeholders directory".

(** A file system in which the placeholder for 200 x 100 is cached. *)
Definition sample_cache : gmap path node :=
  <[ ["out"; "placeholders"; "200_x_100.jpg"] := File [] ]>
    (<[ ["out"; "placeholders"] := Dir ]>
       (<[ ["out"] := Dir ]> (<[ [] := Dir ]> ∅))).

(** No character of [s] is [c]. *)
Fixpoint free_of (c : ascii) (s : string) : Prop :=
  match s with
  | EmptyString => True
  | String x s' => x <> c /\ free_of c s'
  end.

(** The generator [main] builds for dimensions [d] and colour number [n]. *)
Definition generator_for (args : Namespace.t) (d : Z * Z) (n : Z)
  : ImageGenerator.t :=
  ImageGenerator.__init__ (fst d) (snd d) n (Namespace.out args ++ ["placeholders"]).

(** The bitmap [Image.new] allocates for it. *)
Definition frame_for (args : Namespace.t) (d : Z * Z) (n : Z) : Image.t :=
  Image.mk (fst d) (snd d)
    (replicate (Z.to_nat (fst d * snd d))
       (ImageGenerator.color (generator_for args d n))).

(** The path of the placeholder for dimensions [d]. *)
Definition target_for (args : Namespace.t) (d : Z * Z) : path :=
  (Namespace.out args ++ ["placeholders"]) ++ [artifact_name (fst d) (snd d)].

(** The world after a run that renders and saves the bytes [data], from
    the world [wm] left by the directory creation. *)
Definition rendered (args : Namespace.t) (d : Z * Z) (data : list Byte.byte)
    (wm : world) : world :=
  emit INFO ("Saved placeholder image @ " +:+ as_posix (target_for args d))
    (World (<[target_for args d := File data]> (fs wm)) (log wm)).

(** File systems for the runs on concrete inputs. *)
Definition sample_notes : gmap path node :=
  <[ ["out"; "notes.txt"] := File [] ]> (<[ ["out"] := Dir ]> (<[ [] := Dir ]> ∅)).

Definition sample_blocked : gmap path node :=
  <[ ["out"; "placeholders"; "32_x_32.jpg"] := Dir ]>
    (<[ ["out"; "placeholders"] := Dir ]>
       (<[ ["out"] := Dir ]> (<[ [] := Dir ]> ∅))).

Definition sample_file_in_place : gmap path node :=
  <[ ["out"; "placeholders"] := File [] ]>
    (<[ ["out"] := Dir ]> (<[ [] := Dir ]> ∅)).

(** * Properties *)

(** ** The bounds table *)

Lemma BOUNDS_width : BOUNDS !!! "width" = BoundTuple.mk 32 4000.
Proof. reflexivity. Qed.

Lemma BOUNDS_height : BOUNDS !!! "height" = BoundTuple.mk 32 4000.
Proof. reflexivity. Qed.

Lemma BOUNDS_ratio : BOUNDS !!! "ratio" = BoundTuple.mk 1 30.
Proof. reflexivity. Qed.

Lemma validate_range_spec (v : Z) (bd : BoundTuple.t) :
  validate_range v bd = true <->
  BoundTuple.lower bd <= v <= BoundTuple.upper bd.
Proof. unfold validate_range. rewrite andb_true_iff, !Z.leb_le. tauto. Qed.

(** ** Ratio validation *)

Lemma validate_ratio_spec (p : list Z) :
  validate_ratio (Some p) = true <->
  length p = 2%nat /\ Forall (fun v => 1 <= v <= 30) p.
Proof.
  unfold validate_ratio. rewrite BOUNDS_ratio.
  destruct (Nat.eqb_spec (length p) 2) as [Hlen | Hlen]; simpl.
  - rewrite forallb_forall, Forall_forall. split.
    + intros Hall. split; [exact Hlen |].
      intros v Hv. apply list_elem_of_In, Hall in Hv.
      apply validate_range_spec in Hv. exact Hv.
    + intros [_ Hall] v Hv. apply validate_range_spec.
      apply Hall, list_elem_of_In, Hv.
  - split; [discriminate | intros [Hl _]; contradiction].
Qed.

(** C9: on a list of integers [validate_ratio] answers true exactly when
    the list has two elements and both lie in [1, 30]. *)
Theorem validate_ratio_iff (p : list Z) :
  validate_ratio (Some p) = true <->
  length p = 2%nat /\ Forall (fun v => 1 <= v <= 30) p.
Proof. exact (validate_ratio_spec p). Qed.

Lemma validate_ratio_pair (p : list Z) :
  validate_ratio (Some p) = true ->
  exists rw rh, p = [rw; rh] /\ 1 <= rw <= 30 /\ 1 <= rh <= 30.
Proof.
  intros Hv. apply validate_ratio_spec in Hv as [Hlen Hall].
  destruct p as [| rw [| rh [| ? ?]]]; try discriminate.
  exists rw, rh. split; [reflexivity |].
  inversion Hall as [| ? ? Hrw Hrest]; subst.
  inversion Hrest as [| ? ? Hrh _]; subst. auto.
Qed.

(** ** Dimension resolver *)

(** The division is only reached with a divisor whose product with the
    base exceeds the bound, hence never with zero: the function raises in
    no case. *)
Lemma dimmentions_from_ratio_unfold (ratio : RatioTuple.t) (base : Z) :
  dimmentions_from_ratio ratio base =
  let b2 := shrunk_for_height ratio (shrunk_for_width ratio base) in
  Ok (b2 * RatioTuple.width ratio, b2 * RatioTuple.height ratio).
Proof.
  unfold dimmentions_from_ratio, shrunk_for_height, shrunk_for_width, floordiv.
  rewrite BOUNDS_width, BOUNDS_height. cbn [BoundTuple.upper].
  destruct ratio as [rw rh]. cbn [RatioTuple.width RatioTuple.height].
  destruct (Z.gtb_spec (base * rw) 4000) as [H1 | H1].
  - destruct (Z.eqb_spec rw 0) as [-> | _]; [lia |].
    destruct (Z.gtb_spec (4000 / rw * rh) 4000) as [H2 | H2]; [| reflexivity].
    destruct (Z.eqb_spec rh 0) as [-> | _]; [lia | reflexivity].
  - destruct (Z.gtb_spec (base * rh) 4000) as [H2 | H2]; [| reflexivity].
    destruct (Z.eqb_spec rh 0) as [-> | _]; [lia | reflexivity].
Qed.

Lemma shrunk_for_width_le (rw rh base : Z) :
  1 <= rw -> shrunk_for_width (RatioTuple.mk rw rh) base * rw <= 4000.
Proof.
  intros Hrw. unfold shrunk_for_width. cbn [RatioTuple.width].
  destruct (Z.gtb_spec (base * rw) 4000) as [H1 | H1]; [| exact H1].
  rewrite Z.mul_comm. apply Z.mul_div_le. lia.
Qed.

Lemma shrunk_for_height_le (rw rh base : Z) :
  1 <= rh -> shrunk_for_height (RatioTuple.mk rw rh) base * rh <= 4000.
Proof.
  intros Hrh. unfold shrunk_for_height. cbn [RatioTuple.height].
  destruct (Z.gtb_spec (base * rh) 4000) as [H1 | H1]; [| exact H1].
  rewrite Z.mul_comm. apply Z.mul_div_le. lia.
Qed.

(** Shrinking for the height never enlarges the base. *)
Lemma shrunk_for_height_decreases (rw rh base : Z) :
  1 <= rh -> shrunk_for_height (RatioTuple.mk rw rh) base <= base.
Proof.
  intros Hrh. unfold shrunk_for_height. cbn [RatioTuple.height].
  destruct (Z.gtb_spec (base * rh) 4000) as [H1 | H1]; [| lia].
  apply Z.div_le_upper_bound; [lia |]. rewrite Z.mul_comm. lia.
Qed.

(** C4: with ratio components and base at least 1, the base shrunk for
    the width is the one checked and shrunk for the height, both results
    are products of that final base, and neither exceeds 4000. *)
Theorem dimmentions_from_ratio_bounded (rw rh base : Z) :
  1 <= rw -> 1 <= rh -> 1 <= base ->
  let ratio := RatioTuple.mk rw rh in
  let b1 := shrunk_for_width ratio base in
  let b2 := shrunk_for_height ratio b1 in
  dimmentions_from_ratio ratio base = Ok (b2 * rw, b2 * rh)
  /\ b2 * rw <= 4000 /\ b2 * rh <= 4000.
Proof.
  intros Hrw Hrh Hbase ratio b1 b2.
  split; [apply dimmentions_from_ratio_unfold |].
  split; [| apply shrunk_for_height_le; exact Hrh].
  pose proof (shrunk_for_width_le rw rh base Hrw) as Hw.
  pose proof (shrunk_for_height_decreases rw rh b1 Hrh) as Hd.
  fold ratio in Hw. fold b1 in Hw. fold ratio in Hd. fold b2 in Hd. nia.
Qed.

Lemma dimmentions_from_ratio_bounded_witness :
  dimmentions_from_ratio (RatioTuple.mk 50 70) 100 = Ok (2850, 3990)
  /\ 2850 <= 4000 /\ 3990 <= 4000.
Proof.
  exact (dimmentions_from_ratio_bounded 50 70 100 ltac:(lia) ltac:(lia) ltac:(lia)).
Defined.

(** For a ratio accepted by [validate_ratio] and the default base neither
    shrink fires and both results pass the [32, 4000] range check. *)
Lemma dimmentions_from_valid_ratio (p : list Z) :
  validate_ratio (Some p) = true ->
  exists rw rh,
    p = [rw; rh]
    /\ (default_base_dimmention * rw >? 4000) = false
    /\ (default_base_dimmention * rh >? 4000) = false
    /\ dimmentions_from_ratio (RatioTuple.mk rw rh) default_base_dimmention
       = Ok (100 * rw, 100 * rh)
    /\ 100 <= 100 * rw <= 3000 /\ 100 <= 100 * rh <= 3000
    /\ validate_range (100 * rw) (BOUNDS !!! "width") = true
    /\ validate_range (100 * rh) (BOUNDS !!! "height") = true.
Proof.
  intros Hv. apply validate_ratio_pair in Hv as (rw & rh & -> & Hrw & Hrh).
  exists rw, rh. unfold default_base_dimmention.
  assert (Hw : (100 * rw >? 4000) = false)
    by (destruct (Z.gtb_spec (100 * rw) 4000); [lia | reflexivity]).
  assert (Hh : (100 * rh >? 4000) = false)
    by (destruct (Z.gtb_spec (100 * rh) 4000); [lia | reflexivity]).
  repeat split; try lia; try assumption.
  - rewrite dimmentions_from_ratio_unfold.
    unfold shrunk_for_height, shrunk_for_width.
    cbn [RatioTuple.width RatioTuple.height]. rewrite Hw, Hh. reflexivity.
  - rewrite BOUNDS_width. apply validate_range_spec. simpl. lia.
  - rewrite BOUNDS_height. apply validate_range_spec. simpl. lia.
Qed.

Example dimmentions_16_9 :
  dimmentions_from_ratio (RatioTuple.mk 16 9) 100 = Ok (1600, 900).
Proof. reflexivity. Qed.

(** C1, as stated, fails: for the ratio (30, 1) and base 100 the result is
    not (3990, 133). *)
Lemma dimmentions_30_1_not_shrunk :
  dimmentions_from_ratio (RatioTuple.mk 30 1) 100 <> Ok (3990, 133).
Proof. vm_compute. discriminate. Qed.

(** C1, amended: for the ratio (30, 1) and base 100 no shrink occurs
    (3000 does not exceed 4000); the base stays 100 and the result is
    width 3000, height 100. *)
Theorem dimmentions_30_1 :
  shrunk_for_height (RatioTuple.mk 30 1)
    (shrunk_for_width (RatioTuple.mk 30 1) 100) = 100
  /\ dimmentions_from_ratio (RatioTuple.mk 30 1) 100 = Ok (3000, 100).
Proof. split; reflexivity. Qed.

(** ** Hex colour validation *)

Lemma rep_class_iff (cl : list (ascii * ascii)) (hi lo pos : nat)
    (s : list ascii) (k : Re.cont) :
  Re.rep (Re.run (Re.Class cl)) lo hi pos s k = true <->
  exists n : nat,
    (lo <= n <= hi)%nat /\ (n <= length s)%nat
    /\ forallb (Re.in_class cl) (take n s) = true
    /\ k (pos + n)%nat (drop n s) = true.
Proof.
  revert lo pos s. induction hi as [| hi IH]; intros lo pos s.
  - cbn [Re.rep]. rewrite andb_true_iff, Nat.eqb_eq. split.
    + intros [-> Hk]. exists 0%nat. rewrite Nat.add_0_r.
      split; [lia |]. split; [lia |]. split; [reflexivity | exact Hk].
    + intros (n & Hn & _ & _ & Hk). assert (n = 0%nat) as -> by lia.
      rewrite Nat.add_0_r in Hk. split; [lia | exact Hk].
  - cbn [Re.rep]. rewrite orb_true_iff, andb_true_iff, Nat.eqb_eq. split.
    + intros [Hstep | [-> Hk]].
      * destruct s as [| x s']; [discriminate |]. cbn [Re.run] in Hstep.
        apply andb_true_iff in Hstep as [Hx Hrest].
        apply IH in Hrest as (n & Hn & Hlen & Hall & Hk).
        exists (S n). cbn [take drop forallb length]. rewrite Hx, Hall.
        replace (pos + S n)%nat with (S pos + n)%nat by lia.
        split; [lia |]. split; [lia |]. split; [reflexivity | exact Hk].
      * exists 0%nat. rewrite Nat.add_0_r.
        split; [lia |]. split; [lia |]. split; [reflexivity | exact Hk].
    + intros (n & Hn & Hlen & Hall & Hk). destruct n as [| n].
      * right. rewrite Nat.add_0_r in Hk. split; [lia | exact Hk].
      * left. destruct s as [| x s']; [cbn in Hlen; lia |].
        cbn [take forallb] in Hall. apply andb_true_iff in Hall as [Hx Hall].
        cbn [Re.run]. rewrite Hx. cbn [andb]. apply IH.
        exists n. cbn [length] in Hlen. cbn [drop] in Hk.
        replace (pos + S n)%nat with (S pos + n)%nat in Hk by lia.
        split; [lia |]. split; [lia |]. split; assumption.
Qed.

Lemma run_Eol_iff (pos : nat) (s : list ascii) :
  Re.run Re.Eol pos s (fun _ _ => true) = true <-> at_end s.
Proof.
  unfold at_end, newline. destruct s as [| c [| c' s']]; cbn [Re.run].
  - split; auto.
  - rewrite andb_true_r, Ascii.eqb_eq. split.
    + intros ->. right. reflexivity.
    + intros [H | H]; [discriminate | congruence].
  - split; [discriminate | intros [H | H]; discriminate].
Qed.

Lemma rep_twice (f : nat -> list ascii -> Re.cont -> bool) (K : Re.cont)
    (pos : nat) (s : list ascii) :
  Re.rep f 1 2 pos s K = f pos s (fun p1 s1 => f p1 s1 K || K p1 s1).
Proof. cbn [Re.rep Nat.pred Nat.eqb andb]. rewrite orb_false_r. reflexivity. Qed.

Lemma run_hex_color_pattern (l : list ascii) :
  Re.run hex_color_pattern 0 l (fun _ _ => true) = true <->
  exists l', l = "#"%char :: l' /\
    Re.rep (Re.run (Re.Class hexdigit_class)) 3 4 1 l'
      (fun p1 s1 =>
         Re.rep (Re.run (Re.Class hexdigit_class)) 3 4 p1 s1
           (fun p s => Re.run Re.Eol p s (fun _ _ => true))
         || Re.run Re.Eol p1 s1 (fun _ _ => true)) = true.
Proof.
  destruct l as [| x l'].
  - split; [discriminate | intros (l' & Hl & _); discriminate].
  - change (Re.run hex_color_pattern 0 (x :: l') (fun _ _ => true))
      with ((x =? "#")%char
            && Re.rep (Re.run (Re.Rep (Re.Class hexdigit_class) 3 4)) 1 2 1 l'
                 (fun p s => Re.run Re.Eol p s (fun _ _ => true))).
    rewrite rep_twice.
    change (Re.run (Re.Rep (Re.Class hexdigit_class) 3 4))
      with (fun p s k => Re.rep (Re.run (Re.Class hexdigit_class)) 3 4 p s k).
    cbv beta.
    rewrite andb_true_iff, Ascii.eqb_eq. split.
    + intros [-> Hrun]. exists l'. split; [reflexivity | exact Hrun].
    + intros (l'' & Hl & Hrun). injection Hl as -> ->.
      split; [reflexivity | exact Hrun].
Qed.

Lemma forallb_take_drop {A} (f : A -> bool) (n m : nat) (l : list A) :
  forallb f (take n l) = true -> forallb f (take m (drop n l)) = true ->
  forallb f (take n l ++ take m (drop n l)) = true.
Proof. intros H1 H2. rewrite forallb_app, H1, H2. reflexivity. Qed.

Lemma validate_hex_color_iff (s : string) :
  validate_hex_color s = true <-> accepted_shape (list_ascii_of_string s).
Proof.
  unfold validate_hex_color, Re.match_. rewrite run_hex_color_pattern.
  generalize (list_ascii_of_string s) as l. intros l. unfold accepted_shape. split.
  - intros (l' & -> & Hrun).
    apply rep_class_iff in Hrun as (n1 & Hn1 & Hlen1 & Hall1 & Hk).
    apply orb_true_iff in Hk as [Hk | Hk].
    + apply rep_class_iff in Hk as (n2 & Hn2 & Hlen2 & Hall2 & Hk).
      apply run_Eol_iff in Hk.
      exists (take n1 l' ++ take n2 (drop n1 l')), (drop n2 (drop n1 l')).
      split; [| split; [| split]].
      * rewrite <- app_assoc, (take_drop n2), (take_drop n1). reflexivity.
      * apply forallb_take_drop; assumption.
      * rewrite length_app, !length_take, !Nat.min_l by lia.
        rewrite !elem_of_cons. lia.
      * exact Hk.
    + apply run_Eol_iff in Hk.
      exists (take n1 l'), (drop n1 l').
      split; [| split; [| split]].
      * rewrite take_drop. reflexivity.
      * exact Hall1.
      * rewrite length_take, Nat.min_l by lia. rewrite !elem_of_cons. lia.
      * exact Hk.
  - intros (ds & tl & -> & Hall & Hlen & Hend).
    exists (ds ++ tl). split; [reflexivity |].
    pose proof (fun p => proj2 (run_Eol_iff p tl) Hend) as Hrun.
    rewrite !elem_of_cons, elem_of_nil in Hlen.
    assert (Hcut : forall n1 : nat, (3 <= n1 <= 4)%nat ->
              (length ds = n1 \/ (3 <= length ds - n1 <= 4)%nat /\ (n1 <= length ds)%nat) ->
              Re.rep (Re.run (Re.Class hexdigit_class)) 3 4 1 (ds ++ tl)
                (fun p1 s1 =>
                   Re.rep (Re.run (Re.Class hexdigit_class)) 3 4 p1 s1
                     (fun p s => Re.run Re.Eol p s (fun _ _ => true))
                   || Re.run Re.Eol p1 s1 (fun _ _ => true)) = true).
    { intros n1 Hn1 Hcase. apply rep_class_iff. exists n1.
      split; [exact Hn1 |]. split; [rewrite length_app; lia |].
      assert (Hds : forallb is_hex (take n1 ds ++ drop n1 ds) = true)
        by (rewrite take_drop; exact Hall).
      rewrite forallb_app in Hds. apply andb_true_iff in Hds as [Ht Hd].
      split; [rewrite take_app_le by lia; exact Ht |].
      apply orb_true_iff. destruct Hcase as [Heq | [Hn2 Hle]].
      - right. subst n1. rewrite drop_app_length. apply Hrun.
      - left. apply rep_class_iff. exists (length ds - n1)%nat.
        rewrite drop_app_le by lia.
        split; [exact Hn2 |]. split; [rewrite length_app, length_drop; lia |].
        assert (Hl : length (drop n1 ds) = (length ds - n1)%nat) by apply length_drop.
        rewrite <- Hl, take_app_length, drop_app_length.
        split; [exact Hd | apply Hrun]. }
    destruct Hlen as [Hl | [Hl | [Hl | [Hl | [Hl | []]]]]].
    + apply (Hcut 3%nat); lia.
    + apply (Hcut 4%nat); lia.
    + apply (Hcut 3%nat); lia.
    + apply (Hcut 3%nat); lia.
    + apply (Hcut 4%nat); lia.
Qed.

(** C2, at the inputs where code and claim part: seven hexadecimal digits
    are accepted, and so is a colour followed by a newline; the claim's own
    examples behave as it says. *)
Theorem validate_hex_color_seven_digits :
  validate_hex_color "#1234567" = true
  /\ validate_hex_color (String.append "#fff" (String newline EmptyString)) = true
  /\ validate_hex_color "#fff" = true
  /\ validate_hex_color "#ffff" = true
  /\ validate_hex_color "#ffffff" = true
  /\ validate_hex_color "#ffffffff" = true
  /\ validate_hex_color "fff" = false
  /\ validate_hex_color "#ff" = false
  /\ validate_hex_color "#gggggg" = false.
Proof. repeat split; reflexivity. Qed.

(** ** Colour conversion *)

Ltac each_ascii c :=
  destruct c as [[] [] [] [] [] [] [] []].

Lemma is_hex_digit16 (c : ascii) :
  is_hex c = true -> exists v, PyInt.digit16 c = Some v /\ 0 <= v < 16.
Proof.
  intros Hc. each_ascii c; vm_compute in Hc; try discriminate Hc;
    (eexists; split; [vm_compute; reflexivity | lia]).
Qed.

Lemma is_hex_plain (c : ascii) :
  is_hex c = true ->
  Ascii.eqb c "#" = false /\ Ascii.eqb c "_" = false.
Proof.
  intros Hc. each_ascii c; vm_compute in Hc; try discriminate Hc;
    split; reflexivity.
Qed.

Lemma flat_map_hex (new : list ascii) (ds : list ascii) :
  forallb is_hex ds = true ->
  flat_map (fun c => if Ascii.eqb c "#" then new else [c]) ds = ds.
Proof.
  induction ds as [| d ds IH]; intros Hall; [reflexivity |].
  cbn [forallb] in Hall. apply andb_true_iff in Hall as [Hd Hall].
  cbn [flat_map]. destruct (is_hex_plain d Hd) as [-> _].
  rewrite IH by exact Hall. reflexivity.
Qed.

Lemma str_replace_accepted (s : string) (ds tl : list ascii) :
  list_ascii_of_string s = "#"%char :: ds ++ tl ->
  forallb is_hex ds = true -> at_end tl ->
  list_ascii_of_string (str_replace "#" "0x" s)
  = "0"%char :: "x"%char :: ds ++ tl.
Proof.
  intros Hs Hall Hend. unfold str_replace.
  rewrite list_ascii_of_string_of_list_ascii, Hs.
  cbn [flat_map]. rewrite flat_map_app, flat_map_hex by exact Hall.
  destruct Hend as [-> | ->]; reflexivity.
Qed.

Lemma digits_hex_run (ds tl : list ascii) (acc : Z) :
  forallb is_hex ds = true -> at_end tl ->
  PyInt.digits acc (ds ++ tl) = Some (fold_left hex_step ds acc, tl).
Proof.
  intros Hall Hend. revert acc.
  induction ds as [| d ds IH]; intros acc.
  - destruct Hend as [-> | ->]; reflexivity.
  - cbn [forallb] in Hall. apply andb_true_iff in Hall as [Hd Hall].
    destruct (is_hex_digit16 d Hd) as (v & Hv & _).
    cbn [app PyInt.digits fold_left]. rewrite Hv.
    rewrite IH by exact Hall. unfold hex_step at 3. rewrite Hv. reflexivity.
Qed.

Lemma at_end_spaces (tl : list ascii) :
  at_end tl -> forallb PyInt.is_space tl = true.
Proof. intros [-> | ->]; reflexivity. Qed.

Lemma int16_of_shape (s : string) (ds tl : list ascii) :
  list_ascii_of_string s = "#"%char :: ds ++ tl ->
  forallb is_hex ds = true -> ds <> [] -> at_end tl ->
  PyInt.int16 (str_replace "#" "0x" s) = Ok (hex_value ds).
Proof.
  intros Hs Hall Hne Hend.
  unfold PyInt.int16. rewrite (str_replace_accepted s ds tl Hs Hall Hend).
  destruct ds as [| d ds]; [contradiction |].
  cbn [forallb] in Hall. apply andb_true_iff in Hall as [Hd Hall].
  destruct (is_hex_digit16 d Hd) as (v & Hdv & _).
  destruct (is_hex_plain d Hd) as [_ Hus].
  change (PyInt.skip_sign (PyInt.lstrip ("0"%char :: "x"%char :: (d :: ds) ++ tl)))
    with (false, "0"%char :: "x"%char :: d :: ds ++ tl).
  cbn [PyInt.skip_prefix16 Ascii.eqb Bool.eqb andb orb]. rewrite Hus, Hdv.
  rewrite (digits_hex_run ds tl v Hall Hend), (at_end_spaces tl Hend).
  unfold hex_value. cbn [fold_left].
  change (hex_step 0 d) with (0 * 16 + default 0 (PyInt.digit16 d)).
  rewrite Hdv. reflexivity.
Qed.

(** For every accepted colour string the conversion succeeds and yields
    the number written by its digits, whatever their count. *)
Lemma int16_accepted (s : string) :
  validate_hex_color s = true ->
  exists ds tl,
    list_ascii_of_string s = "#"%char :: ds ++ tl
    /\ forallb is_hex ds = true
    /\ length ds ∈ [3; 4; 6; 7; 8]%nat
    /\ at_end tl
    /\ PyInt.int16 (str_replace "#" "0x" s) = Ok (hex_value ds).
Proof.
  intros Hv.
  apply validate_hex_color_iff in Hv as (ds & tl & Hs & Hall & Hlen & Hend).
  exists ds, tl. repeat (split; [assumption |]).
  apply (int16_of_shape s ds tl Hs Hall); [| exact Hend].
  intros ->. rewrite !elem_of_cons, elem_of_nil in Hlen. cbn in Hlen. lia.
Qed.

Lemma land_255_mod (x : Z) : Z.land x 255 = x mod 256.
Proof. change 255 with (Z.ones 8). apply Z.land_ones. lia. Qed.

Lemma land_255_bounds (x : Z) : 0 <= Z.land x 255 <= 255.
Proof.
  rewrite land_255_mod.
  assert (H : 0 < 256) by lia. pose proof (Z.mod_pos_bound x 256 H). lia.
Qed.

(** Whatever the colour argument, a fill colour that is produced has its
    three channels in [0, 255]. *)
Lemma fill_color_channels (text : string) (c : RGBTuple.t) :
  fill_color text = Ok c ->
  0 <= RGBTuple.r c <= 255 /\ 0 <= RGBTuple.g c <= 255
  /\ 0 <= RGBTuple.b c <= 255.
Proof.
  unfold fill_color. destruct (PyInt.int16 _) as [n | e]; [| discriminate].
  intros [= <-]. cbn. auto using land_255_bounds.
Qed.

Lemma fill_color_accepted (s : string) :
  validate_hex_color s = true ->
  exists ds tl,
    list_ascii_of_string s = "#"%char :: ds ++ tl
    /\ fill_color s
       = Ok (RGBTuple.mk (Z.land (Z.shiftr (hex_value ds) 16) 255)
               (Z.land (Z.shiftr (hex_value ds) 8) 255)
               (Z.land (hex_value ds) 255)).
Proof.
  intros Hv. apply int16_accepted in Hv as (ds & tl & Hs & _ & _ & _ & Hint).
  exists ds, tl. split; [exact Hs |]. unfold fill_color. rewrite Hint. reflexivity.
Qed.

Lemma channels_of_six (v1 v2 v3 v4 v5 v6 : Z) :
  0 <= v1 < 16 -> 0 <= v2 < 16 -> 0 <= v3 < 16 ->
  0 <= v4 < 16 -> 0 <= v5 < 16 -> 0 <= v6 < 16 ->
  let n := ((((v1 * 16 + v2) * 16 + v3) * 16 + v4) * 16 + v5) * 16 + v6 in
  Z.land (Z.shiftr n 16) 255 = 16 * v1 + v2
  /\ Z.land (Z.shiftr n 8) 255 = 16 * v3 + v4
  /\ Z.land n 255 = 16 * v5 + v6.
Proof.
  intros H1 H2 H3 H4 H5 H6 n.
  rewrite !land_255_mod, !Z.shiftr_div_pow2 by lia.
  change (2 ^ 16) with 65536. change (2 ^ 8) with 256.
  subst n. repeat split; Z.div_mod_to_equations; lia.
Qed.

(** For the six-digit form the fill colour is the colour the string
    denotes. *)
Lemma fill_color_six_digits (s : string) (d1 d2 d3 d4 d5 d6 : ascii) :
  list_ascii_of_string s = ["#"%char; d1; d2; d3; d4; d5; d6] ->
  forallb is_hex [d1; d2; d3; d4; d5; d6] = true ->
  exists c, fill_color s = Ok c /\ denoted_rgb s = Some c.
Proof.
  intros Hs Hall. unfold fill_color, denoted_rgb.
  rewrite (int16_of_shape s [d1; d2; d3; d4; d5; d6] [] Hs Hall
             ltac:(discriminate) ltac:(left; reflexivity)).
  rewrite Hs, Ascii.eqb_refl, Hall. cbn [andb fmap list_fmap].
  cbn [forallb] in Hall. rewrite !andb_true_iff in Hall.
  destruct Hall as (H1 & H2 & H3 & H4 & H5 & H6 & _).
  destruct (is_hex_digit16 _ H1) as (v1 & E1 & B1).
  destruct (is_hex_digit16 _ H2) as (v2 & E2 & B2).
  destruct (is_hex_digit16 _ H3) as (v3 & E3 & B3).
  destruct (is_hex_digit16 _ H4) as (v4 & E4 & B4).
  destruct (is_hex_digit16 _ H5) as (v5 & E5 & B5).
  destruct (is_hex_digit16 _ H6) as (v6 & E6 & B6).
  unfold hex_value, hex_step. cbn [fold_left].
  rewrite E1, E2, E3, E4, E5, E6. unfold default, from_option, id.
  destruct (channels_of_six v1 v2 v3 v4 v5 v6 B1 B2 B3 B4 B5 B6) as (Hr & Hg & Hb).
  eexists. split; [reflexivity |].
  unfold ImageGenerator.__init__. cbn [ImageGenerator.color].
  change (0 * 16 + v1) with v1. rewrite Hr, Hg, Hb. reflexivity.
Qed.

(** C3, at the inputs where code and claim part: the shorthand [#fff] is
    accepted and read as the number 0xfff, giving the fill colour
    (0, 15, 255) where the string denotes white; for the eight-digit
    [#ff000080] the two leading digits fall outside the 24 bits kept,
    giving (0, 0, 128) where the string denotes red. *)
Theorem fill_color_shorthand_and_alpha :
  validate_hex_color "#fff" = true
  /\ fill_color "#fff" = Ok (RGBTuple.mk 0 15 255)
  /\ denoted_rgb "#fff" = Some (RGBTuple.mk 255 255 255)
  /\ validate_hex_color "#ff000080" = true
  /\ fill_color "#ff000080" = Ok (RGBTuple.mk 0 0 128)
  /\ denoted_rgb "#ff000080" = Some (RGBTuple.mk 255 0 0).
Proof. repeat split; reflexivity. Qed.


(** ** Cache check *)

Lemma Path_name_snoc (p : path) (n : string) : Path_name (p ++ [n]) = n.
Proof. unfold Path_name. rewrite last_snoc. reflexivity. Qed.

Lemma Path_parent_snoc (p : path) (n : string) : Path_parent (p ++ [n]) = p.
Proof. unfold Path_parent. apply removelast_last. Qed.

Lemma path_snoc_inv (q : path) :
  q <> [] -> q = Path_parent q ++ [Path_name q].
Proof.
  intros Hq. destruct (exists_last Hq) as (p & n & ->).
  rewrite Path_parent_snoc, Path_name_snoc. reflexivity.
Qed.

Lemma is_file_Some (t : gmap path node) (q : path) :
  is_file t q = true <-> exists d, t !! q = Some (File d).
Proof.
  unfold is_file. destruct (t !! q) as [[| d] |]; split;
    try discriminate; try (intros [d' Hd]; discriminate); eauto.
Qed.

Lemma is_dir_Some (t : gmap path node) (p : path) :
  is_dir t p = true <-> t !! p = Some Dir.
Proof.
  unfold is_dir. destruct (t !! p) as [[| d] |]; split;
    try discriminate; reflexivity.
Qed.

(** The listing of a directory holds a regular file called [n] exactly
    when the node below it with that name is a regular file. *)
Lemma listing_has_file (t : gmap path node) (root : path) (n : string) :
  n ∈ (Path_name <$>
         filter (fun f => is_file t f = true)
           (filter (fun q => q <> [] /\ Path_parent q = root)
              (fst <$> map_to_list t)))
  <-> exists d, t !! (root ++ [n]) = Some (File d).
Proof.
  rewrite list_elem_of_fmap. split.
  - intros (q & -> & Hq).
    apply list_elem_of_filter in Hq as [Hfile Hq].
    apply list_elem_of_filter in Hq as [[Hne Hpar] _].
    apply is_file_Some in Hfile as [d Hd]. exists d.
    rewrite <- Hpar, <- path_snoc_inv by exact Hne. exact Hd.
  - intros [d Hd]. exists (root ++ [n]).
    split; [rewrite Path_name_snoc; reflexivity |].
    apply list_elem_of_filter. split; [apply is_file_Some; eauto |].
    apply list_elem_of_filter. split.
    + split; [destruct root; discriminate | apply Path_parent_snoc].
    + apply list_elem_of_fmap. exists (root ++ [n], File d).
      split; [reflexivity | apply elem_of_map_to_list; exact Hd].
Qed.

(** An integer of at most 4300 digits is written as [pretty] writes it. *)
Lemma str_int_ok (n : Z) :
  Z.abs n < 10 ^ 4300 -> str_int n = Ok (pretty n).
Proof.
  intros Hn. unfold str_int.
  destruct (Z.leb_spec (10 ^ 4300) (Z.abs n)); [lia | reflexivity].
Qed.

Lemma str_int_inv (n : Z) (s : string) :
  str_int n = Ok s -> Z.abs n < 10 ^ 4300 /\ s = pretty n.
Proof.
  unfold str_int. destruct (Z.leb_spec (10 ^ 4300) (Z.abs n)); [discriminate |].
  intros [= <-]. auto.
Qed.

Lemma format_artifact_name_ok (width height : Z) :
  Z.abs width < 10 ^ 4300 -> Z.abs height < 10 ^ 4300 ->
  format_artifact_name width height = Ok (artifact_name width height).
Proof.
  intros Hw Hh. unfold format_artifact_name.
  rewrite (str_int_ok _ Hw), (str_int_ok _ Hh). reflexivity.
Qed.

Lemma format_artifact_name_inv (width height : Z) (name : string) :
  format_artifact_name width height = Ok name ->
  Z.abs width < 10 ^ 4300 /\ Z.abs height < 10 ^ 4300
  /\ name = artifact_name width height.
Proof.
  unfold format_artifact_name.
  destruct (str_int width) as [sw | e] eqn:Hw; [| discriminate].
  destruct (str_int height) as [sh | e] eqn:Hh; [| discriminate].
  apply str_int_inv in Hw as [Hw ->]. apply str_int_inv in Hh as [Hh ->].
  intros [= <-]. auto.
Qed.

Lemma small_writable (n : Z) : Z.abs n <= 65535 -> Z.abs n < 10 ^ 4300.
Proof.
  intros Hn. assert (H5 : 10 ^ 5 <= 10 ^ 4300)
    by (apply Z.pow_le_mono_r; lia).
  change (10 ^ 5) with 100000 in H5. lia.
Qed.

Lemma placeholder_exists_spec (width height : Z) (save_root : path)
    (t : gmap path node) :
  Z.abs width < 10 ^ 4300 -> Z.abs height < 10 ^ 4300 ->
  exists b : bool,
    placeholder_exists width height save_root t = Ok b
    /\ (b = true <->
        t !! save_root = Some Dir
        /\ exists d, t !! (save_root ++ [artifact_name width height])
                     = Some (File d))
    /\ (t !! save_root = None -> b = false).
Proof.
  intros Hw Hh. unfold placeholder_exists, iterdir.
  rewrite (format_artifact_name_ok _ _ Hw Hh).
  destruct (is_dir t save_root) eqn:Hdir.
  - apply is_dir_Some in Hdir. rewrite Hdir. cbn [negb].
    eexists. split; [reflexivity |]. split.
    + rewrite bool_decide_eq_true, listing_has_file. tauto.
    + intros Hnone. congruence.
  - exists false. split; [reflexivity |]. split; [| reflexivity].
    split; [discriminate |]. intros [Hd _].
    apply is_dir_Some in Hd. congruence.
Qed.

Lemma placeholder_exists_not_dir (width height : Z) (save_root : path)
    (t : gmap path node) :
  t !! save_root <> Some Dir ->
  placeholder_exists width height save_root t = Ok false.
Proof.
  intros Hnot. unfold placeholder_exists.
  destruct (is_dir t save_root) eqn:Hdir; [| reflexivity].
  apply is_dir_Some in Hdir. contradiction.
Qed.

Lemma placeholder_exists_true (width height : Z) (save_root : path)
    (t : gmap path node) :
  placeholder_exists width height save_root t = Ok true ->
  Z.abs width < 10 ^ 4300 /\ Z.abs height < 10 ^ 4300.
Proof.
  unfold placeholder_exists.
  destruct (is_dir t save_root); cbn [negb]; [| discriminate].
  destruct (format_artifact_name width height) as [name | e] eqn:Hname;
    [| discriminate].
  intros _. apply format_artifact_name_inv in Hname. tauto.
Qed.

(** C8: when [save_root] is absent (or is not a directory)
    [placeholder_exists] answers false without raising, whatever the two
    integers.  For integers that an f-string can write (at most 4300
    digits) it never raises, and it answers true exactly when [save_root]
    is a directory holding a regular file whose name is the decimal form
    of [width], then [_x_], then the decimal form of [height], then
    [.jpg]; it answers true for no other integers. *)
Theorem placeholder_exists_iff (width height : Z) (save_root : path)
    (t : gmap path node) :
  (t !! save_root <> Some Dir ->
   placeholder_exists width height save_root t = Ok false)
  /\ (Z.abs width < 10 ^ 4300 -> Z.abs height < 10 ^ 4300 ->
      exists b : bool,
        placeholder_exists width height save_root t = Ok b
        /\ (b = true <->
            t !! save_root = Some Dir
            /\ exists d,
                 t !! (save_root
                       ++ [pretty width +:+ "_x_" +:+ pretty height +:+ ".jpg"])
                 = Some (File d)))
  /\ (placeholder_exists width height save_root t = Ok true ->
      Z.abs width < 10 ^ 4300 /\ Z.abs height < 10 ^ 4300).
Proof.
  split; [apply placeholder_exists_not_dir |].
  split; [| apply placeholder_exists_true].
  intros Hw Hh.
  destruct (placeholder_exists_spec width height save_root t Hw Hh)
    as (b & Hb & Hiff & _).
  exists b. split; [exact Hb |]. exact Hiff.
Qed.

Example placeholder_exists_absent :
  placeholder_exists 800 600 ["dir"] ∅ = Ok false.
Proof. reflexivity. Qed.

Example placeholder_exists_present :
  placeholder_exists 800 600 ["dir"]
    (<[ ["dir"; "800_x_600.jpg"] := File [] ]> (<[ ["dir"] := Dir ]> ∅))
  = Ok true.
Proof. vm_compute. reflexivity. Qed.

Lemma placeholder_exists_iff_witness :
  placeholder_exists 800 600 ["dir"] ∅ = Ok false
  /\ placeholder_exists 800 600 ["dir"]
       (<[ ["dir"; "800_x_600.jpg"] := File [] ]> (<[ ["dir"] := Dir ]> ∅))
     = Ok true
  /\ placeholder_exists 800 600 ["dir"]
       (<[ ["dir"; "600_x_800.jpg"] := File [] ]> (<[ ["dir"] := Dir ]> ∅))
     = Ok false.
Proof.
  split; [| split].
  - apply (proj1 (placeholder_exists_iff 800 600 ["dir"] ∅)). discriminate.
  - destruct (proj1 (proj2 (placeholder_exists_iff 800 600 ["dir"]
                (<[ ["dir"; "800_x_600.jpg"] := File [] ]>
                   (<[ ["dir"] := Dir ]> ∅)))))
      as (b & Hb & Hiff); [apply small_writable; lia | apply small_writable; lia |].
    rewrite Hb. f_equal. apply Hiff. split; [reflexivity |].
    exists []. reflexivity.
  - destruct (proj1 (proj2 (placeholder_exists_iff 800 600 ["dir"]
                (<[ ["dir"; "600_x_800.jpg"] := File [] ]>
                   (<[ ["dir"] := Dir ]> ∅)))))
      as (b & Hb & Hiff); [apply small_writable; lia | apply small_writable; lia |].
    rewrite Hb. f_equal. destruct b; [| reflexivity].
    destruct (proj1 Hiff eq_refl) as [_ [d Hd]]. discriminate Hd.
Defined.

(** ** The effect monad *)

Lemma bind_unfold {A B} (m : M A) (f : A -> M B) (w : world) :
  (m ≫= f) w =
  match m w with
  | (Ok a, w') => f a w'
  | (Raise e, w') => (Raise e, w')
  end.
Proof. reflexivity. Qed.

Lemma error_return {A} (v : A) (msg : string) (w : world) :
  (logger_error msg;; mret v) w = (Ok v, emit ERROR msg w).
Proof. reflexivity. Qed.

(** ** Renderer *)

Lemma Image_new_size (size : Z * Z) (color : RGBTuple.t) (im : Image.t) :
  Image.new size color = Ok im ->
  Image.width im = fst size /\ Image.height im = snd size
  /\ 0 <= fst size /\ 0 <= snd size.
Proof.
  unfold Image.new.
  destruct (Z.ltb_spec (fst size) 0); [discriminate |].
  destruct (Z.ltb_spec (snd size) 0); [discriminate |].
  intros [= <-]. auto.
Qed.

Lemma Image_new_ok (size : Z * Z) (color : RGBTuple.t) :
  0 <= fst size -> 0 <= snd size ->
  Image.new size color
  = Ok (Image.mk (fst size) (snd size)
          (replicate (Z.to_nat (fst size * snd size)) color)).
Proof.
  intros Hw Hh. unfold Image.new.
  destruct (Z.ltb_spec (fst size) 0); [lia |].
  destruct (Z.ltb_spec (snd size) 0); [lia | reflexivity].
Qed.

Section RendererFacts.
Context `{PIL}.

(** *** Saving *)

Lemma Image_save_ok (im : Image.t) (root : path) (n : string)
    (data : list Byte.byte) (w : world) :
  fs w !! root = Some Dir ->
  fs w !! (root ++ [n]) <> Some Dir ->
  jpeg_encode im = Ok data ->
  Image_save im (root ++ [n]) w
  = (Ok tt, World (<[root ++ [n] := File data]> (fs w)) (log w)).
Proof.
  intros Hroot Hnot Henc. unfold Image_save, open_wb.
  rewrite Path_parent_snoc, Hroot.
  destruct (root ++ [n]) as [| c p'] eqn:Hp; [destruct root; discriminate |].
  destruct (fs w !! (c :: p')) as [[| ?] |]; [contradiction | |];
    rewrite Henc; cbn [fs log]; rewrite insert_insert_eq; reflexivity.
Qed.

Lemma Image_save_inv (im : Image.t) (root : path) (n : string)
    (w w' : world) (u : unit) :
  Image_save im (root ++ [n]) w = (Ok u, w') ->
  exists data,
    jpeg_encode im = Ok data
    /\ fs w !! root = Some Dir
    /\ fs w !! (root ++ [n]) <> Some Dir
    /\ w' = World (<[root ++ [n] := File data]> (fs w)) (log w).
Proof.
  unfold Image_save, open_wb. rewrite Path_parent_snoc.
  destruct (root ++ [n]) as [| c p'] eqn:Hp; [discriminate |].
  destruct (fs w !! root) as [[| ?] |]; try discriminate.
  destruct (fs w !! (c :: p')) as [[| old] |] eqn:Ht; try discriminate.
  - destruct (jpeg_encode im) as [bytes | e]; [| discriminate].
    intros [= _ <-]. exists bytes. cbn [fs log]. rewrite insert_insert_eq.
    split; [reflexivity |]. split; [reflexivity |].
    split; [congruence | reflexivity].
  - destruct (jpeg_encode im) as [bytes | e]; [| discriminate].
    intros [= _ <-]. exists bytes. cbn [fs log]. rewrite insert_insert_eq.
    split; [reflexivity |]. split; [reflexivity |].
    split; [congruence | reflexivity].
Qed.

Lemma Image_save_dir (im : Image.t) (root : path) (n : string) (w : world) :
  fs w !! root = Some Dir ->
  fs w !! (root ++ [n]) = Some Dir ->
  Image_save im (root ++ [n]) w = (Raise IsADirectoryError, w).
Proof.
  intros Hroot Hdir. unfold Image_save, open_wb.
  rewrite Path_parent_snoc, Hroot.
  destruct (root ++ [n]) as [| c p'] eqn:Hp; [destruct root; discriminate |].
  rewrite Hdir. reflexivity.
Qed.

Lemma Image_save_no_directory (im : Image.t) (root : path) (n : string)
    (w : world) :
  fs w !! root = None ->
  Image_save im (root ++ [n]) w = (Raise FileNotFoundError, w).
Proof.
  intros Hroot. unfold Image_save, open_wb. rewrite Path_parent_snoc, Hroot.
  destruct (root ++ [n]) as [| c p'] eqn:Hp; [destruct root; discriminate |].
  reflexivity.
Qed.

(** When the encoder refuses the image, a file that was not there is not
    left behind. *)
Lemma Image_save_refused (im : Image.t) (root : path) (n : string)
    (e : exn) (w : world) :
  fs w !! root = Some Dir ->
  fs w !! (root ++ [n]) = None ->
  jpeg_encode im = Raise e ->
  Image_save im (root ++ [n]) w = (Raise e, w).
Proof.
  intros Hroot Hnone Henc. unfold Image_save, open_wb.
  rewrite Path_parent_snoc, Hroot.
  destruct (root ++ [n]) as [| c p'] eqn:Hp; [destruct root; discriminate |].
  rewrite Hnone, Henc. cbn [fs log].
  rewrite delete_insert_eq, delete_id by exact Hnone.
  destruct w; reflexivity.
Qed.

(** *** The four steps of [start] *)

Lemma smoothen_keeps_image (self : ImageGenerator.t) (im : Image.t) (w : world) :
  ImageGenerator.image self = Some im ->
  ImageGenerator._smoothen_image self w = (Ok self, w).
Proof. intros Him. unfold ImageGenerator._smoothen_image. rewrite Him. reflexivity. Qed.

Lemma start_unfold (self : ImageGenerator.t) (w : world) :
  ImageGenerator.start self w =
  match Image.new (ImageGenerator.width self, ImageGenerator.height self)
          (ImageGenerator.color self) with
  | Raise e => (Raise e, w)
  | Ok frame =>
      let target :=
        ImageGenerator.save_root self
        ++ [artifact_name (ImageGenerator.width self) (ImageGenerator.height self)] in
      match Image_save (crossed self frame) target w with
      | (Ok _, w') =>
          (Ok (ImageGenerator.set_image self (crossed self frame)),
           emit INFO ("Saved placeholder image @ " +:+ as_posix target) w')
      | (Raise e, w') => (Raise e, w')
      end
  end.
Proof.
  unfold ImageGenerator.start, ImageGenerator._setup_frame.
  rewrite bind_unfold.
  destruct (Image.new _ _) as [frame | e] eqn:Hnew; [| reflexivity].
  apply Image_new_size in Hnew as (Hw & Hh & _). cbn [fst snd] in Hw, Hh.
  destruct self as [sw sh sc si sr], frame as [fw fh fd].
  cbn [Image.width Image.height ImageGenerator.width ImageGenerator.height]
    in Hw, Hh. subst fw fh.
  cbv beta iota zeta delta
    [ImageGenerator._setup_cross ImageGenerator._smoothen_image
     ImageGenerator._save_image ImageGenerator.set_image
     ImageGenerator.image ImageGenerator.width ImageGenerator.height
     ImageGenerator.save_root ImageGenerator.color
     ImageGenerator.inverted_color
     mbind M_bind mret M_ret Image_filter logger_info crossed
     ImageDraw_line Image.width Image.height Image.data].
  destruct (Image_save _ _ w) as [[[] | e] w']; reflexivity.
Qed.

Lemma crossed_size (self : ImageGenerator.t) (frame : Image.t) :
  Image.width (crossed self frame) = Image.width frame
  /\ Image.height (crossed self frame) = Image.height frame.
Proof. split; reflexivity. Qed.

(** C7: for a generator whose sides the JPEG encoder accepts (1 to 65500
    pixels), the blur pass returns the generator as it received it, and
    the bytes that [start] writes are the encoding of the bitmap as it was
    after drawing the cross; the filtered bitmap appears nowhere. *)
Theorem start_saves_unblurred (self : ImageGenerator.t) (w : world)
    (frame : Image.t) :
  1 <= ImageGenerator.width self <= 65500 ->
  1 <= ImageGenerator.height self <= 65500 ->
  Image.new (ImageGenerator.width self, ImageGenerator.height self)
    (ImageGenerator.color self) = Ok frame ->
  fs w !! ImageGenerator.save_root self = Some Dir ->
  let target :=
    ImageGenerator.save_root self
    ++ [artifact_name (ImageGenerator.width self) (ImageGenerator.height self)] in
  fs w !! target <> Some Dir ->
  let cross := crossed self frame in
  ImageGenerator._smoothen_image (ImageGenerator.set_image self cross) w
  = (Ok (ImageGenerator.set_image self cross), w)
  /\ exists data,
       jpeg_encode cross = Ok data
       /\ ImageGenerator.start self w
          = (Ok (ImageGenerator.set_image self cross),
             emit INFO ("Saved placeholder image @ " +:+ as_posix target)
               (World (<[target := File data]> (fs w)) (log w))).
Proof.
  intros Hw Hh Hnew Hroot target Hfree cross. split.
  - apply (smoothen_keeps_image _ cross). reflexivity.
  - destruct (Image_new_size _ _ _ Hnew) as (Hfw & Hfh & _).
    cbn [fst snd] in Hfw, Hfh.
    destruct (jpeg_encode_fits cross) as [data Henc].
    { unfold cross. rewrite (proj1 (crossed_size self frame)), Hfw. exact Hw. }
    { unfold cross. rewrite (proj2 (crossed_size self frame)), Hfh. exact Hh. }
    exists data. split; [exact Henc |].
    rewrite start_unfold, Hnew. cbv zeta. fold target. fold cross.
    unfold target at 1.
    rewrite (Image_save_ok cross _ _ data w Hroot Hfree Henc). reflexivity.
Qed.

(** With an empty side the encoder refuses the image: [start] raises
    [ValueError] and a file that was not there is not left behind. *)
Lemma start_empty_image (self : ImageGenerator.t) (w : world) :
  0 <= ImageGenerator.width self -> 0 <= ImageGenerator.height self ->
  ImageGenerator.width self = 0 \/ ImageGenerator.height self = 0 ->
  fs w !! ImageGenerator.save_root self = Some Dir ->
  fs w !! (ImageGenerator.save_root self
           ++ [artifact_name (ImageGenerator.width self)
                 (ImageGenerator.height self)]) = None ->
  ImageGenerator.start self w = (Raise ValueError, w).
Proof.
  intros Hw Hh Hzero Hroot Hnone. rewrite start_unfold.
  rewrite Image_new_ok by (cbn [fst snd]; assumption). cbv zeta.
  rewrite (Image_save_refused _ _ _ ValueError w Hroot Hnone); [reflexivity |].
  apply jpeg_encode_empty. exact Hzero.
Qed.
End RendererFacts.

(** ** Creating directories *)

Lemma mkdirs_noop (todo : list string) (done : path) (w : world) :
  (forall k : nat, (k <= length todo)%nat ->
     fs w !! (done ++ take k todo) = Some Dir) ->
  mkdirs done todo w = (Ok tt, w).
Proof.
  revert done. induction todo as [| n todo IH]; intros done Hall.
  - cbn [mkdirs]. specialize (Hall 0%nat ltac:(cbn; lia)).
    cbn [take] in Hall. rewrite app_nil_r in Hall. rewrite Hall. reflexivity.
  - cbn [mkdirs]. pose proof (Hall 0%nat ltac:(cbn; lia)) as H0.
    cbn [take] in H0. rewrite app_nil_r in H0. rewrite H0.
    apply IH. intros k Hk. specialize (Hall (S k) ltac:(cbn; lia)).
    cbn [take] in Hall. rewrite <- app_assoc. exact Hall.
Qed.

(** When it succeeds, every prefix is a directory afterwards, nothing that
    existed is altered and the log is untouched. *)
Lemma mkdirs_ok (todo : list string) (done : path) (w w' : world) (u : unit) :
  mkdirs done todo w = (Ok u, w') ->
  log w' = log w
  /\ (forall q x, fs w !! q = Some x -> fs w' !! q = Some x)
  /\ (forall k : nat, (k <= length todo)%nat ->
        fs w' !! (done ++ take k todo) = Some Dir).
Proof.
  revert done w. induction todo as [| n todo IH]; intros done w Hrun.
  - cbn [mkdirs] in Hrun.
    destruct (fs w !! done) as [[| ?] |] eqn:Hd; try discriminate;
      injection Hrun as _ <-; (split; [reflexivity |]); split.
    + auto.
    + intros k _. rewrite take_nil, app_nil_r. exact Hd.
    + intros q x Hq. cbn [fs]. rewrite lookup_insert_ne; [exact Hq | congruence].
    + intros k _. rewrite take_nil, app_nil_r. cbn [fs]. apply lookup_insert_eq.
  - cbn [mkdirs] in Hrun.
    destruct (fs w !! done) as [[| ?] |] eqn:Hd; try discriminate.
    + apply IH in Hrun as (Hlog & Hkeep & Hdirs).
      split; [exact Hlog |]. split; [exact Hkeep |].
      intros [| k] Hk.
      * cbn [take]. rewrite app_nil_r. apply Hkeep, Hd.
      * cbn [take]. specialize (Hdirs k ltac:(cbn in Hk; lia)).
        rewrite <- app_assoc in Hdirs. exact Hdirs.
    + apply IH in Hrun as (Hlog & Hkeep & Hdirs). cbn [fs log] in *.
      split; [exact Hlog |]. split.
      * intros q x Hq. apply Hkeep. rewrite lookup_insert_ne; [exact Hq | congruence].
      * intros [| k] Hk.
        -- cbn [take]. rewrite app_nil_r. apply Hkeep, lookup_insert_eq.
        -- cbn [take]. specialize (Hdirs k ltac:(cbn in Hk; lia)).
           rewrite <- app_assoc in Hdirs. exact Hdirs.
Qed.

Lemma fs_wf_ancestor (t : gmap path node) (p q : path) :
  fs_wf t -> is_Some (t !! (p ++ q)) -> q <> [] -> t !! p = Some Dir.
Proof.
  intros Hwf. induction q as [| n q IH] using rev_ind; [contradiction |].
  intros [x Hx] _. rewrite app_assoc in Hx.
  destruct (Hwf _ _ Hx) as [Hnil | Hpar].
  { destruct (p ++ q); discriminate. }
  rewrite Path_parent_snoc in Hpar. apply is_dir_Some in Hpar.
  destruct q as [| c q'] using rev_ind.
  - rewrite app_nil_r in Hpar. exact Hpar.
  - apply IH; [eauto |]. destruct q'; discriminate.
Qed.

(** ** Entry point *)

Section EntryFacts.
Context `{PIL}.

Lemma main_match_cases (args : Namespace.t) (w : world) :
  (exists msg, main_match args w = (Ok (inl 1), emit ERROR msg w))
  \/ (exists d, resolved args d /\ main_match args w = (Ok (inr d), w)).
Proof.
  unfold main_match, DimmentionOptions.SIZE, DimmentionOptions.RATIO.
  destruct (String.eqb_spec (Namespace.option args) "size") as [Hsize | Hsize].
  - destruct (Namespace.width args) as [wd |] eqn:Hw;
      [| left; eexists; apply error_return].
    destruct (Namespace.height args) as [ht |] eqn:Hh;
      [| left; eexists; cbn [truthy andb negb];
         rewrite andb_false_r; apply error_return].
    destruct (negb (truthy (Some wd) && truthy (Some ht)));
      [left; eexists; apply error_return |].
    rewrite BOUNDS_width, BOUNDS_height.
    destruct (validate_range wd _) eqn:Hvw;
      [| left; eexists; apply error_return].
    destruct (validate_range ht _) eqn:Hvh;
      [| left; eexists; apply error_return].
    apply validate_range_spec in Hvw, Hvh. cbn in Hvw, Hvh.
    right. exists (wd, ht). split; [| reflexivity].
    apply resolved_size; assumption.
  - destruct (String.eqb_spec (Namespace.option args) "ratio") as [Hratio | Hratio];
      [| left; eexists; apply error_return].
    destruct (validate_ratio (Namespace.ratio args)) eqn:Hv;
      [| left; eexists; apply error_return].
    destruct (Namespace.ratio args) as [l |] eqn:Hl; [| discriminate].
    destruct (dimmentions_from_valid_ratio l Hv)
      as (rw & rh & -> & _ & _ & Hdims & _).
    apply validate_ratio_pair in Hv as (rw' & rh' & [= <- <-] & Hrw & Hrh).
    cbn [negb lookup list_lookup]. rewrite Hdims.
    right. exists (100 * rw, 100 * rh). split; [| reflexivity].
    apply resolved_ratio; assumption.
Qed.

Lemma resolved_fun (args : Namespace.t) (d d' : Z * Z) :
  resolved args d -> resolved args d' -> d = d'.
Proof.
  intros [w h Ho Hw Hh _ _ | rw rh Ho Hr _ _]
         [w' h' Ho' Hw' Hh' _ _ | rw' rh' Ho' Hr' _ _]; try congruence.
Qed.

Lemma main_match_resolved (args : Namespace.t) (d : Z * Z) (w : world) :
  resolved args d -> main_match args w = (Ok (inr d), w).
Proof.
  intros Hd. destruct (main_match_cases args w) as [[msg Hm] | (d' & Hd' & Hm)].
  - exfalso. revert Hm. unfold main_match, DimmentionOptions.SIZE,
      DimmentionOptions.RATIO.
    destruct Hd as [wd ht Ho Hw Hh Hwd Hht | rw rh Ho Hr Hrw Hrh].
    + rewrite Ho, Hw, Hh. cbn [String.eqb Ascii.eqb Bool.eqb truthy].
      replace (wd =? 0) with false by (symmetry; apply Z.eqb_neq; lia).
      replace (ht =? 0) with false by (symmetry; apply Z.eqb_neq; lia).
      rewrite BOUNDS_width, BOUNDS_height.
      replace (validate_range wd _) with true
        by (symmetry; apply validate_range_spec; cbn; lia).
      replace (validate_range ht _) with true
        by (symmetry; apply validate_range_spec; cbn; lia).
      discriminate.
    + rewrite Ho, Hr. cbn [String.eqb Ascii.eqb Bool.eqb].
      assert (Hv : validate_ratio (Some [rw; rh]) = true).
      { apply validate_ratio_spec. split; [reflexivity |].
        repeat constructor; lia. }
      rewrite Hv. cbn [negb lookup list_lookup].
      destruct (dimmentions_from_ratio _ _); discriminate.
  - rewrite (resolved_fun args d d' Hd Hd'). exact Hm.
Qed.

Lemma resolved_failure_color (args : Namespace.t) (d : Z * Z) :
  resolved args d -> validation_failure args ->
  validate_hex_color (Namespace.color args) = false.
Proof.
  intros [w h Ho Hw Hh Hwd Hht | rw rh Ho Hr Hrw Hrh]
         [Ho' [Hn | Hn] | w' h' Ho' Hw' Hh' Hbad | Ho' Hbad | Hc | Hn1 Hn2];
    try assumption; try congruence.
  - exfalso. apply Hbad. replace w' with w by congruence.
    replace h' with h by congruence. auto.
  - exfalso. apply (Hbad rw rh Hr). auto.
Qed.
End EntryFacts.

Lemma resolved_in_bounds (args : Namespace.t) (d : Z * Z) :
  resolved args d ->
  32 <= fst d <= 4000 /\ 32 <= snd d <= 4000.
Proof. intros [w h _ _ _ Hw Hh | rw rh _ _ Hrw Hrh]; cbn [fst snd]; lia. Qed.

Lemma resolved_writable (args : Namespace.t) (d : Z * Z) :
  resolved args d ->
  Z.abs (fst d) < 10 ^ 4300 /\ Z.abs (snd d) < 10 ^ 4300.
Proof.
  intros Hd. destruct (resolved_in_bounds args d Hd) as [Hw Hh].
  split; apply small_writable; lia.
Qed.

Section CacheFacts.
Context `{PIL}.

Lemma inspect_placeholder_exists (d : Z * Z) (root : path) (w : world) :
  Z.abs (fst d) < 10 ^ 4300 -> Z.abs (snd d) < 10 ^ 4300 ->
  exists b : bool,
    inspect (placeholder_exists (fst d) (snd d) root) w = (Ok b, w)
    /\ (b = true <->
        fs w !! root = Some Dir
        /\ exists data, fs w !! (root ++ [artifact_name (fst d) (snd d)])
                        = Some (File data)).
Proof.
  intros Hw Hh.
  destruct (placeholder_exists_spec (fst d) (snd d) root (fs w) Hw Hh)
    as (b & Hb & Hiff & _).
  exists b. unfold inspect. rewrite Hb. auto.
Qed.

(** What [main] does once the dimensions are resolved and the colour
    has passed. *)
Lemma main_resolved (args : Namespace.t) (d : Z * Z) (w : world) :
  resolved args d ->
  validate_hex_color (Namespace.color args) = true ->
  main args w =
  match Path_mkdir (Namespace.out args ++ ["placeholders"]) w with
  | (Raise e, w1) => (Raise e, w1)
  | (Ok _, w1) =>
      match inspect (placeholder_exists (fst d) (snd d)
                       (Namespace.out args ++ ["placeholders"])) w1 with
      | (Raise e, w2) => (Raise e, w2)
      | (Ok true, w2) => (Ok None, emit INFO (cache_hit_message d) w2)
      | (Ok false, w2) =>
          match PyInt.int16 (str_replace "#" "0x" (Namespace.color args)) with
          | Raise e => (Raise e, w2)
          | Ok color =>
              match ImageGenerator.start
                      (ImageGenerator.__init__ (fst d) (snd d) color
                         (Namespace.out args ++ ["placeholders"])) w2 with
              | (Ok _, w3) => (Ok None, w3)
              | (Raise e, w3) => (Raise e, w3)
              end
          end
      end
  end.
Proof.
  intros Hd Hc. unfold main. rewrite bind_unfold, (main_match_resolved args d w Hd).
  destruct d as [wd ht]. cbn [fst snd]. rewrite Hc. cbn [negb].
  rewrite bind_unfold.
  destruct (Path_mkdir _ w) as [[[] | e] w1]; [| reflexivity].
  rewrite bind_unfold.
  destruct (inspect _ w1) as [[[|] | e] w2]; [reflexivity | | reflexivity].
  destruct (PyInt.int16 _) as [color | e]; [| reflexivity].
  rewrite bind_unfold.
  destruct (ImageGenerator.start _ w2) as [[g | e] w3]; reflexivity.
Qed.

Lemma main_cached (args : Namespace.t) (d : Z * Z) (w : world) :
  cached (fs w) (Namespace.out args) d ->
  resolved args d ->
  validate_hex_color (Namespace.color args) = true ->
  main args w = (Ok None, emit INFO (cache_hit_message d) w).
Proof.
  intros [Hdirs Hfile] Hd Hc. rewrite (main_resolved args d w Hd Hc).
  unfold Path_mkdir. rewrite mkdirs_noop by (intros k _; apply Hdirs).
  destruct (resolved_writable args d Hd) as [Hbw Hbh].
  destruct (inspect_placeholder_exists d (Namespace.out args ++ ["placeholders"]) w
              Hbw Hbh)
    as (b & -> & Hiff).
  replace b with true; [reflexivity |].
  symmetry. apply Hiff. split; [| exact Hfile].
  specialize (Hdirs (length (Namespace.out args ++ ["placeholders"]))).
  rewrite firstn_all in Hdirs. exact Hdirs.
Qed.

(** After a run of [main] that ends normally the placeholder is in
    place. *)
Lemma main_leaves_cached (args : Namespace.t) (d : Z * Z) (w w1 : world) :
  resolved args d ->
  main args w = (Ok None, w1) ->
  cached (fs w1) (Namespace.out args) d.
Proof.
  intros Hd Hrun.
  destruct (validate_hex_color (Namespace.color args)) eqn:Hc.
  2: { unfold main in Hrun.
       rewrite bind_unfold, (main_match_resolved args d w Hd) in Hrun.
       destruct d as [wd ht]. rewrite Hc in Hrun. discriminate Hrun. }
  rewrite (main_resolved args d w Hd Hc) in Hrun.
  set (root := Namespace.out args ++ ["placeholders"]) in *.
  unfold Path_mkdir in Hrun.
  destruct (mkdirs [] root w) as [[[] | e] wm] eqn:Hmk; [| discriminate].
  apply mkdirs_ok in Hmk as (_ & _ & Hdirs). cbn [app] in Hdirs.
  assert (Hpre : forall (t : gmap path node) (k : nat),
            (forall k, (k <= length root)%nat -> t !! take k root = Some Dir) ->
            t !! take k root = Some Dir).
  { intros t k Ht. destruct (Nat.le_gt_cases k (length root)) as [Hk | Hk].
    - apply Ht, Hk.
    - rewrite take_ge by lia. rewrite <- (firstn_all root) at 1.
      apply Ht. lia. }
  destruct (resolved_writable args d Hd) as [Hbw Hbh].
  destruct (inspect_placeholder_exists d root wm Hbw Hbh) as (b & Hb & Hiff).
  rewrite Hb in Hrun. destruct b.
  - injection Hrun as <-. cbn [emit fs]. split.
    + intros k. apply Hpre, Hdirs.
    + apply Hiff. reflexivity.
  - destruct (PyInt.int16 _) as [color | e]; [| discriminate].
    rewrite start_unfold in Hrun.
    cbn [ImageGenerator.__init__ ImageGenerator.width ImageGenerator.height
         ImageGenerator.color ImageGenerator.save_root] in Hrun.
    destruct (Image.new _ _) as [frame | e]; [| discriminate].
    cbv zeta in Hrun.
    destruct (Image_save _ _ wm) as [[[] | e] ws] eqn:Hwr; [| discriminate].
    apply Image_save_inv in Hwr as (bytes & _ & _ & _ & ->).
    injection Hrun as <-. cbn [emit fs]. split.
    + intros k. rewrite lookup_insert_ne; [apply Hpre, Hdirs |].
      intros Heq. apply (f_equal length) in Heq.
      rewrite length_app, length_take in Heq. cbn [length] in Heq. unfold root in Heq. lia.
    + eexists. apply lookup_insert_eq.
Qed.

(** C5: with validated dimensions and colour, if the file
    [{width}_x_{height}.jpg] is already in the placeholders directory,
    [main] ends normally leaving the file system as it was, whatever the
    colour; and after any run that ended normally, a further run for the
    same dimensions (whatever its colour) writes nothing either. *)
Theorem main_cache_hit_no_write :
  (forall (args : Namespace.t) (d : Z * Z) (w : world) (data : list Byte.byte),
      fs_wf (fs w) ->
      resolved args d ->
      validate_hex_color (Namespace.color args) = true ->
      fs w !! ((Namespace.out args ++ ["placeholders"])
               ++ [artifact_name (fst d) (snd d)]) = Some (File data) ->
      main args w = (Ok None, emit INFO (cache_hit_message d) w)
      /\ fs (snd (main args w)) = fs w)
  /\ (forall (args args' : Namespace.t) (d : Z * Z) (w w1 : world),
        resolved args d ->
        main args w = (Ok None, w1) ->
        resolved args' d ->
        Namespace.out args' = Namespace.out args ->
        validate_hex_color (Namespace.color args') = true ->
        main args' w1 = (Ok None, emit INFO (cache_hit_message d) w1)
        /\ fs (snd (main args' w1)) = fs w1).
Proof.
  split.
  - intros args d w data Hwf Hd Hc Hfile.
    assert (Hmain : main args w = (Ok None, emit INFO (cache_hit_message d) w)).
    { apply main_cached; [| exact Hd | exact Hc]. split; [| eauto].
      intros k. set (root := Namespace.out args ++ ["placeholders"]) in *.
      apply (fs_wf_ancestor (fs w) _ (drop k root ++ [artifact_name (fst d) (snd d)]) Hwf).
      - rewrite app_assoc, take_drop. eauto.
      - destruct (drop k root); discriminate. }
    rewrite Hmain. split; reflexivity.
  - intros args args' d w w1 Hd Hrun Hd' Hout Hc.
    assert (Hmain : main args' w1 = (Ok None, emit INFO (cache_hit_message d) w1)).
    { apply main_cached; [| exact Hd' | exact Hc].
      rewrite Hout. exact (main_leaves_cached args d w w1 Hd Hrun). }
    rewrite Hmain. split; reflexivity.
Qed.

Lemma main_failure (args : Namespace.t) (w : world) :
  validation_failure args ->
  exists msg, main args w = (Ok (Some 1), emit ERROR msg w).
Proof.
  intros Hfail. unfold main. rewrite bind_unfold.
  destruct (main_match_cases args w) as [[msg ->] | (d & Hd & ->)].
  - exists msg. reflexivity.
  - destruct d as [wd ht].
    rewrite (resolved_failure_color args _ Hd Hfail).
    eexists. apply error_return.
Qed.

(** C6, as the code has it: on every validation failure [main] returns
    1 after logging one error and leaves the file system untouched; the
    script calls [main()] as a statement, so the exit status of the
    process is nevertheless 0. *)
Theorem main_failure_status (root : path) (args : Namespace.t) (w0 w : world) :
  validation_failure args ->
  Path_mkdir (root ++ ["logs"]) w0 = (Ok tt, w) ->
  exists msg,
    main args w = (Ok (Some 1), emit ERROR msg w)
    /\ fs (snd (main args w)) = fs w
    /\ script root args w0 = (0, emit ERROR msg w).
Proof.
  intros Hfail Hlogs. destruct (main_failure args w Hfail) as [msg Hmain].
  exists msg. split; [exact Hmain |]. split; [rewrite Hmain; reflexivity |].
  unfold script. rewrite Hlogs, Hmain. reflexivity.
Qed.
End CacheFacts.

Section RatioMode.
Context `{PIL}.

(** C10: in ratio mode with a ratio accepted by [validate_ratio], neither
    shrink of the resolver fires for the default base, the dimensions
    are (100 * width-units, 100 * height-units), both in [100, 3000] and
    hence inside the [32, 4000] range and never zero, and these are the
    dimensions the entry point goes on with. *)
Theorem ratio_mode_dimensions (args : Namespace.t) (w : world) :
  Namespace.option args = "ratio" ->
  validate_ratio (Namespace.ratio args) = true ->
  exists rw rh,
    Namespace.ratio args = Some [rw; rh]
    /\ 1 <= rw <= 30 /\ 1 <= rh <= 30
    /\ (default_base_dimmention * rw >? 4000) = false
    /\ (default_base_dimmention * rh >? 4000) = false
    /\ dimmentions_from_ratio (RatioTuple.mk rw rh) default_base_dimmention
       = Ok (100 * rw, 100 * rh)
    /\ 100 <= 100 * rw <= 3000 /\ 100 <= 100 * rh <= 3000
    /\ validate_range (100 * rw) (BOUNDS !!! "width") = true
    /\ validate_range (100 * rh) (BOUNDS !!! "height") = true
    /\ main_match args w = (Ok (inr (100 * rw, 100 * rh)), w).
Proof.
  intros Ho Hv. destruct (Namespace.ratio args) as [p |] eqn:Hp; [| discriminate].
  destruct (dimmentions_from_valid_ratio p Hv)
    as (rw & rh & -> & Hsw & Hsh & Hdims & Hbw & Hbh & Hvw & Hvh).
  exists rw, rh. repeat (split; [first [reflexivity | assumption | lia] |]).
  apply main_match_resolved. apply resolved_ratio; [assumption .. | lia | lia].
Qed.
End RatioMode.

Lemma ratio_mode_dimensions_witness :
  exists rw rh,
    Some [16; 9] = Some [rw; rh]
    /\ 1 <= rw <= 30 /\ 1 <= rh <= 30
    /\ (default_base_dimmention * rw >? 4000) = false
    /\ (default_base_dimmention * rh >? 4000) = false
    /\ dimmentions_from_ratio (RatioTuple.mk rw rh) default_base_dimmention
       = Ok (100 * rw, 100 * rh)
    /\ 100 <= 100 * rw <= 3000 /\ 100 <= 100 * rh <= 3000
    /\ validate_range (100 * rw) (BOUNDS !!! "width") = true
    /\ validate_range (100 * rh) (BOUNDS !!! "height") = true
    /\ main_match (Namespace.mk None None (Some [16; 9]) "#96b08a" ["out"] "ratio")
         (World ∅ [])
       = (Ok (inr (100 * rw, 100 * rh)), World ∅ []).
Proof.
  apply (ratio_mode_dimensions
           (Namespace.mk None None (Some [16; 9]) "#96b08a" ["out"] "ratio")
           (World ∅ [])); reflexivity.
Defined.

Lemma start_saves_unblurred_witness :
  let self := ImageGenerator.__init__ 40 32 9875594 ["out"; "placeholders"] in
  let w := World (<[ ["out"; "placeholders"] := Dir ]> ∅) [] in
  let cross :=
    crossed self
      (Image.mk 40 32 (replicate (Z.to_nat (40 * 32)) (ImageGenerator.color self))) in
  exists data,
    jpeg_encode cross = Ok data
    /\ ImageGenerator.start self w
       = (Ok (ImageGenerator.set_image self cross),
          emit INFO "Saved placeholder image @ out/placeholders/40_x_32.jpg"
            (World (<[ ["out"; "placeholders"; "40_x_32.jpg"] := File data ]> (fs w))
               (log w))).
Proof.
  intros self w cross.
  refine (proj2 (start_saves_unblurred self w _ _ _ _ _ _)).
  - cbn. lia.
  - cbn. lia.
  - reflexivity.
  - reflexivity.
  - vm_compute. discriminate.
Defined.

Lemma sample_cache_wf : fs_wf sample_cache.
Proof.
  unfold fs_wf, sample_cache.
  repeat (apply map_Forall_insert_2; [vm_compute; auto |]).
  apply map_Forall_empty.
Defined.

Lemma main_cache_hit_no_write_witness :
  let args := Namespace.mk (Some 200) (Some 100) None "#000" ["out"] "size" in
  let first := Namespace.mk (Some 32) (Some 32) None "#96b08a" ["out"] "size" in
  let again := Namespace.mk (Some 32) (Some 32) None "#fff" ["out"] "size" in
  let w1 := snd (main first (World ∅ [])) in
  (main args (World sample_cache [])
   = (Ok None,
      emit INFO "Placeholder 200x100 already exists in placeholders directory"
        (World sample_cache []))
   /\ fs (snd (main args (World sample_cache []))) = sample_cache)
  /\ (main again w1
      = (Ok None,
         emit INFO "Placeholder 32x32 already exists in placeholders directory" w1)
      /\ fs (snd (main again w1)) = fs w1).
Proof.
  intros args first again w1. split.
  - refine (proj1 main_cache_hit_no_write args (200, 100)
              (World sample_cache []) [] _ _ _ _).
    + exact sample_cache_wf.
    + apply resolved_size; first [reflexivity | lia].
    + reflexivity.
    + reflexivity.
  - refine (proj2 main_cache_hit_no_write first again (32, 32)
              (World ∅ []) w1 _ _ _ _ _).
    + apply resolved_size; first [reflexivity | lia].
    + vm_compute. reflexivity.
    + apply resolved_size; first [reflexivity | lia].
    + reflexivity.
    + reflexivity.
Defined.

Lemma main_failure_status_witness :
  let args := Namespace.mk (Some 10) (Some 100) None "#96b08a" ["out"] "size" in
  let w := World (<[ ["app"; "logs"] := Dir ]>
                    (<[ ["app"] := Dir ]> (<[ [] := Dir ]> ∅))) [] in
  exists msg,
    main args w = (Ok (Some 1), emit ERROR msg w)
    /\ fs (snd (main args w)) = fs w
    /\ script ["app"] args (World ∅ []) = (0, emit ERROR msg w).
Proof.
  intros args w.
  apply (main_failure_status ["app"] args (World ∅ []) w).
  - apply (dimension_out_of_range args 10 100); first [reflexivity | lia].
  - reflexivity.
Defined.

(** * Further properties *)

(** ** Validators *)

(** X1: [validate_hex_color] accepts exactly the strings made of [#], then
    3, 4, 6, 7 or 8 hexadecimal digits, then nothing more or one final
    newline. *)
Theorem hex_color_accepted_set (s : string) :
  validate_hex_color s = true <->
  exists ds tl,
    list_ascii_of_string s = "#"%char :: ds ++ tl
    /\ forallb is_hex ds = true
    /\ length ds ∈ [3; 4; 6; 7; 8]%nat
    /\ (tl = [] \/ tl = [newline]).
Proof. exact (validate_hex_color_iff s). Qed.

(** ** Dimension resolver *)

(** X2: for all integers, zero and negative ones included,
    [dimmentions_from_ratio] returns: the floor division is only reached
    with a divisor whose product with the base exceeds the bound, so it
    never divides by zero. *)
Theorem dimmentions_from_ratio_never_raises (ratio : RatioTuple.t) (base : Z) :
  (forall e, dimmentions_from_ratio ratio base <> Raise e)
  /\ exists wd ht, dimmentions_from_ratio ratio base = Ok (wd, ht).
Proof.
  rewrite dimmentions_from_ratio_unfold. cbv zeta.
  split; [discriminate | eauto].
Qed.

(** X3: the two results are always in the proportion of the ratio, and
    with ratio components of at least 1 and a non-negative base they are
    non-negative and never larger than the unshrunk products. *)
Theorem dimmentions_keep_ratio (rw rh base : Z) :
  exists wd ht,
    dimmentions_from_ratio (RatioTuple.mk rw rh) base = Ok (wd, ht)
    /\ wd * rh = ht * rw
    /\ (1 <= rw -> 1 <= rh -> 0 <= base ->
        0 <= wd <= base * rw /\ 0 <= ht <= base * rh).
Proof.
  rewrite dimmentions_from_ratio_unfold. cbv zeta.
  cbn [RatioTuple.width RatioTuple.height].
  eexists _, _. split; [reflexivity |]. split; [ring |].
  intros Hrw Hrh Hbase.
  set (b1 := shrunk_for_width (RatioTuple.mk rw rh) base).
  set (b2 := shrunk_for_height (RatioTuple.mk rw rh) b1).
  assert (H1 : 0 <= b1 <= base).
  { unfold b1, shrunk_for_width. cbn [RatioTuple.width].
    destruct (Z.gtb_spec (base * rw) 4000) as [Hgt | Hle]; [| lia].
    split; [apply Z.div_pos; lia |].
    apply Z.div_le_upper_bound; [lia |]. rewrite Z.mul_comm. lia. }
  assert (H2 : 0 <= b2 <= b1).
  { split; [| apply shrunk_for_height_decreases; exact Hrh].
    unfold b2, shrunk_for_height. cbn [RatioTuple.height].
    destruct (Z.gtb_spec (b1 * rh) 4000) as [Hgt | Hle]; [| lia].
    apply Z.div_pos; lia. }
  nia.
Qed.

(** X4: with a base and ratio components of at least 1, a ratio component
    above 4000 makes the base collapse to 0: both results are 0. *)
Theorem dimmentions_oversized_ratio (rw rh base : Z) :
  1 <= base -> 1 <= rw -> 1 <= rh -> 4000 < rw \/ 4000 < rh ->
  dimmentions_from_ratio (RatioTuple.mk rw rh) base = Ok (0, 0).
Proof.
  intros Hbase Hrw Hrh Hbig.
  rewrite dimmentions_from_ratio_unfold. cbv zeta.
  cbn [RatioTuple.width RatioTuple.height].
  set (b1 := shrunk_for_width (RatioTuple.mk rw rh) base).
  assert (H1 : 0 <= b1 /\ (4000 < rw -> b1 = 0)).
  { unfold b1, shrunk_for_width. cbn [RatioTuple.width].
    destruct (Z.gtb_spec (base * rw) 4000) as [Hgt | Hle].
    - split; [apply Z.div_pos; lia |]. intros Hw. apply Z.div_small. lia.
    - split; [lia | nia]. }
  assert (H2 : shrunk_for_height (RatioTuple.mk rw rh) b1 = 0).
  { unfold shrunk_for_height. cbn [RatioTuple.height].
    destruct (Z.gtb_spec (b1 * rh) 4000) as [Hgt | Hle].
    - destruct Hbig as [Hw | Hh]; [| apply Z.div_small; lia].
      destruct H1 as [_ H1]. rewrite (H1 Hw) in Hgt. lia.
    - destruct Hbig as [Hw | Hh]; [apply H1, Hw | nia]. }
  rewrite H2. reflexivity.
Qed.

Lemma dimmentions_oversized_ratio_witness :
  dimmentions_from_ratio (RatioTuple.mk 3 4001) 100 = Ok (0, 0).
Proof.
  apply (dimmentions_oversized_ratio 3 4001 100); lia.
Defined.

(** ** Colour conversion *)

(** X5: every colour string that [validate_hex_color] accepts is
    converted without error by [int(color.replace("#", "0x"), 16)]: the
    string is [#], its hexadecimal digits and at most a final newline, and
    the result is the number those digits write in base 16, which is
    non-negative and below 16 to the number of digits. *)
Theorem color_conversion_succeeds (s : string) :
  validate_hex_color s = true ->
  exists ds tl,
    list_ascii_of_string s = "#"%char :: ds ++ tl
    /\ forallb is_hex ds = true
    /\ length ds ∈ [3; 4; 6; 7; 8]%nat
    /\ (tl = [] \/ tl = [newline])
    /\ PyInt.int16 (str_replace "#" "0x" s) = Ok (hex_value ds)
    /\ 0 <= hex_value ds < 16 ^ Z.of_nat (length ds).
Proof.
  intros Hv.
  destruct (int16_accepted s Hv) as (ds & tl & Hs & Hall & Hlen & Hend & Hint).
  exists ds, tl. repeat (split; [assumption |]).
  unfold hex_value.
  assert (Hacc : forall l acc, forallb is_hex l = true -> 0 <= acc ->
             0 <= fold_left hex_step l acc
             < (acc + 1) * 16 ^ Z.of_nat (length l)).
  { induction l as [| c l IH]; intros acc Hl Hacc.
    - cbn [fold_left length]. change (16 ^ Z.of_nat 0) with 1. lia.
    - cbn [forallb] in Hl. apply andb_true_iff in Hl as [Hc Hl].
      destruct (is_hex_digit16 c Hc) as (v & Hv' & Hb).
      cbn [fold_left length]. rewrite Nat2Z.inj_succ, Z.pow_succ_r by lia.
      assert (Hstep : hex_step acc c = acc * 16 + v)
        by (unfold hex_step; rewrite Hv'; reflexivity).
      rewrite Hstep. specialize (IH (acc * 16 + v) Hl ltac:(lia)).
      assert (Hp : 0 < 16 ^ Z.of_nat (length l)) by (apply Z.pow_pos_nonneg; lia).
      nia. }
  specialize (Hacc ds 0 Hall ltac:(lia)). lia.
Qed.

Lemma color_conversion_succeeds_witness :
  PyInt.int16 (str_replace "#" "0x" "#96b08a") = Ok 9875594.
Proof.
  destruct (color_conversion_succeeds "#96b08a" eq_refl)
    as (ds & tl & Hs & _ & _ & Hend & Hint & _).
  rewrite Hint. f_equal.
  change (list_ascii_of_string "#96b08a")
    with ("#"%char :: list_ascii_of_string "96b08a" ++ []) in Hs.
  injection Hs as Hs.
  destruct Hend as [-> | ->].
  - rewrite !app_nil_r in Hs. subst ds. reflexivity.
  - apply (f_equal (@rev ascii)) in Hs. rewrite !rev_app_distr in Hs.
    cbn in Hs. discriminate Hs.
Defined.

(** X6: whatever integer [ImageGenerator.__init__] receives as colour,
    negative or wider than 24 bits, the three channels it stores lie in
    [0, 255], and so do those of the inverted colour, each being the
    complement to 255 of the stored one. *)
Theorem init_channels_in_range (width height color : Z) (save_root : path) :
  let self := ImageGenerator.__init__ width height color save_root in
  let c := ImageGenerator.color self in
  let i := ImageGenerator.inverted_color self in
  (0 <= RGBTuple.r c <= 255 /\ 0 <= RGBTuple.g c <= 255
   /\ 0 <= RGBTuple.b c <= 255)
  /\ (0 <= RGBTuple.r i <= 255 /\ 0 <= RGBTuple.g i <= 255
      /\ 0 <= RGBTuple.b i <= 255)
  /\ RGBTuple.r c + RGBTuple.r i = 255
  /\ RGBTuple.g c + RGBTuple.g i = 255
  /\ RGBTuple.b c + RGBTuple.b i = 255.
Proof.
  cbn.
  pose proof (land_255_bounds (Z.shiftr color 16)).
  pose proof (land_255_bounds (Z.shiftr color 8)).
  pose proof (land_255_bounds color). lia.
Qed.

(** X7: for a colour written with exactly six hexadecimal digits the fill
    colour is the one the string denotes: each channel is the value of its
    pair of digits. *)
Theorem six_digit_color_converted (s : string) (d1 d2 d3 d4 d5 d6 : ascii) :
  list_ascii_of_string s = ["#"%char; d1; d2; d3; d4; d5; d6] ->
  forallb is_hex [d1; d2; d3; d4; d5; d6] = true ->
  exists c, fill_color s = Ok c /\ denoted_rgb s = Some c.
Proof. exact (fill_color_six_digits s d1 d2 d3 d4 d5 d6). Qed.

Lemma six_digit_color_converted_witness :
  exists c, fill_color "#96b08a" = Ok c /\ denoted_rgb "#96b08a" = Some c.
Proof.
  apply (six_digit_color_converted "#96b08a" "9" "6" "b" "0" "8" "a");
    reflexivity.
Defined.

(** ** The cache key *)

Lemma pretty_N_go_free (c : ascii) (x : N) (s : string) :
  (forall n, pretty_N_char n <> c) ->
  free_of c s -> free_of c (pretty_N_go x s).
Proof.
  intros Hc. revert s. induction (N.lt_wf_0 x) as [x _ IH]; intros s Hs.
  assert (x = 0 \/ 0 < x)%N as [-> | Hpos] by lia.
  - rewrite pretty_N_go_0. exact Hs.
  - rewrite pretty_N_go_step by exact Hpos. apply IH.
    + apply N.div_lt; [exact Hpos | reflexivity].
    + split; [apply Hc | exact Hs].
Qed.

Lemma pretty_Z_free (c : ascii) (z : Z) :
  (forall n, pretty_N_char n <> c) -> c <> "-"%char ->
  free_of c (pretty z).
Proof.
  intros Hc Hdash.
  assert (HN : forall p : positive, free_of c (pretty p)).
  { intros p. unfold pretty, pretty_positive, pretty, pretty_N.
    destruct (decide (N.pos p = 0%N)); [discriminate |].
    apply pretty_N_go_free; [exact Hc | exact I]. }
  destruct z as [| p | p]; unfold pretty, pretty_Z.
  - split; [| exact I]. apply (Hc 0%N).
  - apply HN.
  - split; [congruence | apply HN].
Qed.

Lemma digit_not_underscore (n : N) : pretty_N_char n <> "_"%char.
Proof. unfold pretty_N_char. repeat case_match; discriminate. Qed.

Lemma digit_not_dot (n : N) : pretty_N_char n <> "."%char.
Proof. unfold pretty_N_char. repeat case_match; discriminate. Qed.

Lemma append_split (c : ascii) (s1 s2 t1 t2 : string) :
  free_of c s1 -> free_of c s2 ->
  s1 +:+ String c t1 = s2 +:+ String c t2 -> s1 = s2 /\ t1 = t2.
Proof.
  revert s2. induction s1 as [| x s1 IH]; intros [| y s2] H1 H2 Heq;
    cbn in Heq, H1, H2.
  - injection Heq as ->. auto.
  - injection Heq as Hy _. destruct H2 as [H2 _]. congruence.
  - injection Heq as Hx _. destruct H1 as [H1 _]. congruence.
  - injection Heq as -> Heq. destruct H1 as [_ H1], H2 as [_ H2].
    destruct (IH s2 H1 H2 Heq) as [-> ->]. auto.
Qed.

(** X8: the file name is a faithful key: two dimension pairs with the
    same artifact name are the same pair. *)
Theorem artifact_name_inj (w h w' h' : Z) :
  artifact_name w h = artifact_name w' h' -> w = w' /\ h = h'.
Proof.
  unfold artifact_name. intros Heq.
  change ("_x_" +:+ pretty h +:+ ".jpg")
    with (String "_" ("x_" +:+ pretty h +:+ ".jpg")) in Heq.
  change ("_x_" +:+ pretty h' +:+ ".jpg")
    with (String "_" ("x_" +:+ pretty h' +:+ ".jpg")) in Heq.
  apply append_split in Heq as [Hw Hrest];
    [| apply pretty_Z_free; [apply digit_not_underscore | discriminate] ..].
  split; [apply (inj pretty), Hw |].
  cbn in Hrest. injection Hrest as Hrest.
  change ".jpg" with (String "." "jpg") in Hrest.
  apply append_split in Hrest as [Hh _];
    [| apply pretty_Z_free; [apply digit_not_dot | discriminate] ..].
  apply (inj pretty), Hh.
Qed.

Lemma artifact_name_inj_witness : 800 = 800 /\ 600 = 600.
Proof. apply (artifact_name_inj 800 600 800 600). reflexivity. Defined.

(** ** Directory creation and file writing, continued *)

Lemma mkdirs_keeps (todo : list string) (done : path) (w w' : world)
    (r : res unit) :
  mkdirs done todo w = (r, w') ->
  log w' = log w
  /\ (forall q x, fs w !! q = Some x -> fs w' !! q = Some x)
  /\ (forall q, (forall k : nat, q <> done ++ take k todo) ->
                fs w' !! q = fs w !! q).
Proof.
  revert done w. induction todo as [| n todo IH]; intros done w Hrun.
  - cbn [mkdirs] in Hrun.
    destruct (fs w !! done) as [[| ?] |] eqn:Hd;
      injection Hrun as _ <-; (split; [reflexivity |]); split; auto.
    + intros q x Hq. cbn [fs]. rewrite lookup_insert_ne; [exact Hq | congruence].
    + intros q Hq. cbn [fs]. apply lookup_insert_ne.
      specialize (Hq 0%nat). cbn [take] in Hq. rewrite app_nil_r in Hq. congruence.
  - cbn [mkdirs] in Hrun.
    destruct (fs w !! done) as [[| ?] |] eqn:Hd.
    + apply IH in Hrun as (Hlog & Hkeep & Hframe).
      split; [exact Hlog |]. split; [exact Hkeep |].
      intros q Hq. apply Hframe. intros k. specialize (Hq (S k)).
      cbn [take] in Hq. rewrite <- app_assoc. exact Hq.
    + injection Hrun as _ <-. auto.
    + apply IH in Hrun as (Hlog & Hkeep & Hframe). cbn [fs log] in *.
      split; [exact Hlog |]. split.
      * intros q x Hq. apply Hkeep. rewrite lookup_insert_ne; [exact Hq | congruence].
      * intros q Hq. rewrite Hframe.
        -- apply lookup_insert_ne. specialize (Hq 0%nat).
           cbn [take] in Hq. rewrite app_nil_r in Hq. congruence.
        -- intros k. specialize (Hq (S k)).
           cbn [take] in Hq. rewrite <- app_assoc. exact Hq.
Qed.

Lemma mkdirs_leaf_file (todo : list string) (done : path) (w : world)
    (data : list Byte.byte) :
  (forall k : nat, (k < length todo)%nat ->
     fs w !! (done ++ take k todo) = Some Dir) ->
  fs w !! (done ++ todo) = Some (File data) ->
  mkdirs done todo w = (Raise FileExistsError, w).
Proof.
  revert done. induction todo as [| n todo IH]; intros done Hdirs Hleaf.
  - cbn [mkdirs]. rewrite app_nil_r in Hleaf. rewrite Hleaf. reflexivity.
  - cbn [mkdirs]. pose proof (Hdirs 0%nat ltac:(cbn; lia)) as H0.
    cbn [take] in H0. rewrite app_nil_r in H0. rewrite H0.
    apply IH.
    + intros k Hk. specialize (Hdirs (S k) ltac:(cbn; lia)).
      cbn [take] in Hdirs. rewrite <- app_assoc. exact Hdirs.
    + rewrite <- app_assoc. exact Hleaf.
Qed.

(** ** Entry point, continued *)

Section EntryMore.
Context `{PIL}.

Lemma error_outcome_inj {A} (v : A) (msg msg' : string) (w : world) :
  (Ok v, emit ERROR msg w) = (Ok v, emit ERROR msg' w) -> msg = msg'.
Proof.
  unfold emit. intros Heq. injection Heq as Heq.
  apply app_inv_head in Heq. congruence.
Qed.

Lemma main_match_outcomes (args : Namespace.t) (w : world) :
  (exists msg,
      main_match args w = (Ok (inl 1), emit ERROR msg w)
      /\ validation_failure args
      /\ msg <> "Missing width or height ratio")
  \/ (exists d, resolved args d /\ main_match args w = (Ok (inr d), w)).
Proof.
  destruct (main_match_cases args w) as [[msg Hm] | Hres]; [| right; exact Hres].
  left. revert Hm.
  unfold main_match, DimmentionOptions.SIZE, DimmentionOptions.RATIO.
  destruct (String.eqb_spec (Namespace.option args) "size") as [Hsize | Hsize].
  - destruct (Namespace.width args) as [wd |] eqn:Hw.
    2: { cbn [truthy andb negb].
         rewrite error_return. intros <-%error_outcome_inj. eexists. split; [reflexivity |].
         split; [apply missing_dimension; auto | discriminate]. }
    destruct (Namespace.height args) as [ht |] eqn:Hh.
    2: { cbn [truthy andb negb]. rewrite andb_false_r. cbn [negb].
         rewrite error_return. intros <-%error_outcome_inj. eexists. split; [reflexivity |].
         split; [apply missing_dimension; auto | discriminate]. }
    cbn [truthy].
    destruct (Z.eqb_spec wd 0) as [Hwd | Hwd]; cbn [negb andb].
    { rewrite error_return. intros <-%error_outcome_inj. eexists. split; [reflexivity |].
      split; [| discriminate].
      apply (dimension_out_of_range args wd ht); auto. lia. }
    destruct (Z.eqb_spec ht 0) as [Hht | Hht]; cbn [negb andb].
    { rewrite error_return. intros <-%error_outcome_inj. eexists. split; [reflexivity |].
      split; [| discriminate].
      apply (dimension_out_of_range args wd ht); auto. lia. }
    rewrite BOUNDS_width, BOUNDS_height.
    destruct (validate_range wd _ && validate_range ht _) eqn:Hv; cbn [negb].
    { discriminate. }
    rewrite error_return. intros <-%error_outcome_inj. eexists. split; [reflexivity |].
    split; [| discriminate].
    apply (dimension_out_of_range args wd ht); auto.
    intros [Hbw Hbh]. apply andb_false_iff in Hv as [Hv | Hv];
      apply not_true_iff_false in Hv; apply Hv, validate_range_spec; cbn; lia.
  - destruct (String.eqb_spec (Namespace.option args) "ratio") as [Hratio | Hratio].
    2: { rewrite error_return. intros <-%error_outcome_inj. eexists. split; [reflexivity |].
         split; [apply unknown_mode; assumption | discriminate]. }
    destruct (validate_ratio (Namespace.ratio args)) eqn:Hv; cbn [negb].
    + destruct (Namespace.ratio args) as [l |] eqn:Hl; [| discriminate].
      apply validate_ratio_pair in Hv as (rw & rh & -> & Hrw & Hrh).
      cbn [lookup list_lookup].
      destruct (dimmentions_from_ratio _ _); discriminate.
    + rewrite error_return. intros <-%error_outcome_inj. eexists. split; [reflexivity |].
      split; [| discriminate].
      apply bad_ratio; [exact Hratio |]. intros rw rh Hr Hb. rewrite Hr in Hv.
      apply not_true_iff_false in Hv. apply Hv, validate_ratio_spec.
      split; [reflexivity |]. repeat constructor; lia.
Qed.
End EntryMore.

Lemma target_not_prefix (root : path) (n : string) (k : nat) :
  root ++ [n] <> [] ++ take k root.
Proof.
  cbn [app]. intros Heq. apply (f_equal length) in Heq.
  rewrite length_app, length_take in Heq. cbn [length] in Heq. lia.
Qed.

Section EntryRuns.
Context `{PIL}.

Lemma main_mkdir_raise (args : Namespace.t) (d : Z * Z) (w w1 : world) (e : exn) :
  resolved args d ->
  validate_hex_color (Namespace.color args) = true ->
  Path_mkdir (Namespace.out args ++ ["placeholders"]) w = (Raise e, w1) ->
  main args w = (Raise e, w1).
Proof.
  intros Hd Hc Hmk. rewrite (main_resolved args d w Hd Hc), Hmk. reflexivity.
Qed.

Lemma frame_for_new (args : Namespace.t) (d : Z * Z) (n : Z) :
  0 <= fst d -> 0 <= snd d ->
  Image.new (fst d, snd d) (ImageGenerator.color (generator_for args d n))
  = Ok (frame_for args d n).
Proof. intros Hw Hh. rewrite Image_new_ok by assumption. reflexivity. Qed.

(** For resolved dimensions the encoder accepts the crossed bitmap. *)
Lemma crossed_encodes (args : Namespace.t) (d : Z * Z) (n : Z) :
  resolved args d ->
  exists data,
    jpeg_encode (crossed (generator_for args d n) (frame_for args d n)) = Ok data.
Proof.
  intros Hd. destruct (resolved_in_bounds args d Hd) as [Hw Hh].
  apply jpeg_encode_fits; cbn; lia.
Qed.

Lemma main_after_mkdir (args : Namespace.t) (d : Z * Z) (w wm : world) :
  resolved args d ->
  validate_hex_color (Namespace.color args) = true ->
  Path_mkdir (Namespace.out args ++ ["placeholders"]) w = (Ok tt, wm) ->
  exists n data,
    PyInt.int16 (str_replace "#" "0x" (Namespace.color args)) = Ok n
    /\ jpeg_encode (crossed (generator_for args d n) (frame_for args d n))
       = Ok data
    /\ main args w =
       match fs wm !! target_for args d with
       | Some (File _) => (Ok None, emit INFO (cache_hit_message d) wm)
       | Some Dir => (Raise IsADirectoryError, wm)
       | None => (Ok None, rendered args d data wm)
       end.
Proof.
  intros Hd Hc Hmk.
  destruct (int16_accepted _ Hc) as (ds & tl & _ & _ & _ & _ & Hint).
  destruct (crossed_encodes args d (hex_value ds) Hd) as [data Henc].
  exists (hex_value ds), data. split; [exact Hint |]. split; [exact Henc |].
  rewrite (main_resolved args d w Hd Hc), Hmk.
  set (root := Namespace.out args ++ ["placeholders"]) in *.
  assert (Hroot : fs wm !! root = Some Dir).
  { apply mkdirs_ok in Hmk as (_ & _ & Hdirs).
    specialize (Hdirs (length root) ltac:(lia)).
    rewrite firstn_all in Hdirs. exact Hdirs. }
  destruct (resolved_writable args d Hd) as [Hsw Hsh].
  destruct (inspect_placeholder_exists d root wm Hsw Hsh) as (b & -> & Hiff).
  destruct (resolved_in_bounds args d Hd) as [Hbw Hbh].
  unfold target_for. fold root.
  destruct (fs wm !! (root ++ [artifact_name (fst d) (snd d)]))
    as [[| old] |] eqn:Ht.
  - replace b with false
      by (destruct b; [destruct (proj1 Hiff eq_refl) as [_ [? ?]]; congruence | reflexivity]).
    rewrite Hint, start_unfold.
    change (ImageGenerator.__init__ (fst d) (snd d) (hex_value ds) root)
      with (generator_for args d (hex_value ds)).
    change (ImageGenerator.width (generator_for args d (hex_value ds))) with (fst d).
    change (ImageGenerator.height (generator_for args d (hex_value ds))) with (snd d).
    change (ImageGenerator.save_root (generator_for args d (hex_value ds))) with root.
    rewrite (frame_for_new args d (hex_value ds)) by lia. cbv zeta.
    rewrite (Image_save_dir _ root _ wm Hroot Ht). reflexivity.
  - replace b with true by (symmetry; apply Hiff; eauto). reflexivity.
  - replace b with false
      by (destruct b; [destruct (proj1 Hiff eq_refl) as [_ [? ?]]; congruence | reflexivity]).
    rewrite Hint, start_unfold.
    change (ImageGenerator.__init__ (fst d) (snd d) (hex_value ds) root)
      with (generator_for args d (hex_value ds)).
    change (ImageGenerator.width (generator_for args d (hex_value ds))) with (fst d).
    change (ImageGenerator.height (generator_for args d (hex_value ds))) with (snd d).
    change (ImageGenerator.save_root (generator_for args d (hex_value ds))) with root.
    rewrite (frame_for_new args d (hex_value ds)) by lia. cbv zeta.
    rewrite (Image_save_ok _ root _ data wm Hroot) by (congruence || exact Henc).
    reflexivity.
Qed.
End EntryRuns.

Section EntryTheorems.
Context `{PIL}.

(** Every run of [main] on resolved dimensions and an accepted colour. *)
Lemma main_valid_runs (args : Namespace.t) (d : Z * Z) (w : world) :
  resolved args d ->
  validate_hex_color (Namespace.color args) = true ->
  (exists e w1,
      Path_mkdir (Namespace.out args ++ ["placeholders"]) w = (Raise e, w1)
      /\ main args w = (Raise e, w1))
  \/ (exists wm,
        Path_mkdir (Namespace.out args ++ ["placeholders"]) w = (Ok tt, wm)
        /\ ((exists old, fs wm !! target_for args d = Some (File old)
                         /\ main args w = (Ok None, emit INFO (cache_hit_message d) wm))
            \/ (fs wm !! target_for args d = Some Dir
                /\ main args w = (Raise IsADirectoryError, wm))
            \/ (exists data, fs wm !! target_for args d = None
                             /\ main args w = (Ok None, rendered args d data wm)))).
Proof.
  intros Hd Hc.
  destruct (Path_mkdir (Namespace.out args ++ ["placeholders"]) w)
    as [[[] | e] wm] eqn:Hmk.
  - right. exists wm. split; [reflexivity |].
    destruct (main_after_mkdir args d w wm Hd Hc Hmk) as (n & data & _ & _ & Hrun).
    destruct (fs wm !! target_for args d) as [[| old] |] eqn:Ht; eauto 7.
  - left. exists e, wm. split; [reflexivity |].
    exact (main_mkdir_raise args d w wm e Hd Hc Hmk).
Qed.

Lemma main_runs (args : Namespace.t) (w : world) :
  (exists msg,
      main args w = (Ok (Some 1), emit ERROR msg w)
      /\ validation_failure args
      /\ msg <> "Missing width or height ratio")
  \/ (exists d, resolved args d
                /\ validate_hex_color (Namespace.color args) = true).
Proof.
  destruct (main_match_outcomes args w)
    as [(msg & Hm & Hfail & Hmsg) | (d & Hd & Hm)].
  - left. exists msg. unfold main. rewrite bind_unfold, Hm. auto.
  - destruct (validate_hex_color (Namespace.color args)) eqn:Hc; [right; eauto |].
    left. eexists. unfold main. rewrite bind_unfold, Hm. destruct d as [wd ht].
    rewrite Hc. cbn [negb]. rewrite error_return.
    split; [reflexivity |]. split; [apply bad_color; exact Hc | discriminate].
Qed.

(** What a run of [main] appends to the log: one error record when it
    returns 1, one information record when it returns [None], nothing
    when it raises; never the message of the [IndexError] branch. *)
Lemma main_log_growth (args : Namespace.t) (w w' : world) (r : res (option Z)) :
  main args w = (r, w') ->
  (forall q x, fs w !! q = Some x -> fs w' !! q = Some x)
  /\ ((exists msg, r = Ok (Some 1) /\ validation_failure args
                   /\ msg <> "Missing width or height ratio"
                   /\ log w' = log w ++ [(ERROR, msg)])
      \/ (exists msg, r = Ok None /\ ~ validation_failure args
                      /\ log w' = log w ++ [(INFO, msg)])
      \/ (exists e, r = Raise e /\ ~ validation_failure args
                    /\ log w' = log w)).
Proof.
  intros Hrun.
  destruct (main_runs args w) as [(msg & Hm & Hfail & Hmsg) | (d & Hd & Hc)].
  { rewrite Hm in Hrun. injection Hrun as <- <-. split; [auto |].
    left. exists msg. auto. }
  assert (Hvalid : ~ validation_failure args).
  { intros Hfail. pose proof (resolved_failure_color args d Hd Hfail). congruence. }
  destruct (main_valid_runs args d w Hd Hc)
    as [(e & w1 & Hmk & Hm) | (wm & Hmk & [(old & _ & Hm) | [(_ & Hm) | (data & Ht & Hm)]])];
    rewrite Hm in Hrun; injection Hrun as <- <-;
    apply mkdirs_keeps in Hmk as (Hlog & Hkeep & _).
  - split; [exact Hkeep |]. right. right. eauto.
  - split; [exact Hkeep |]. right. left. eexists. cbn [emit log]. rewrite Hlog. eauto.
  - split; [exact Hkeep |]. right. right. eauto.
  - split.
    + intros q x Hq. cbn [rendered emit fs].
      rewrite lookup_insert_ne; [apply Hkeep, Hq |].
      intros <-. apply Hkeep in Hq. congruence.
    + right. left. eexists. cbn [rendered emit log]. rewrite Hlog. eauto.
Qed.

(** X9: whenever the [match] statement of [main] lets execution go on, it
    has changed nothing and the two dimensions lie in [32, 4000], in size
    mode and in ratio mode alike. *)
Theorem main_match_dimensions_in_bounds (args : Namespace.t) (w w' : world)
    (wd ht : Z) :
  main_match args w = (Ok (inr (wd, ht)), w') ->
  w' = w /\ 32 <= wd <= 4000 /\ 32 <= ht <= 4000.
Proof.
  intros Hm. destruct (main_match_cases args w) as [[msg Hm'] | (d & Hd & Hm')];
    rewrite Hm' in Hm; [discriminate |].
  injection Hm as -> <-. split; [reflexivity |].
  exact (resolved_in_bounds args _ Hd).
Qed.

(** X10: [main] returns 1 exactly when the invocation fails validation;
    every other run returns [None] or raises.  That is: on a validation
    failure the outcome is the value 1, and otherwise it is [None] or an
    exception; no run returns any other value. *)
Theorem main_returns_1_iff (args : Namespace.t) (w : world) :
  ((exists w', main args w = (Ok (Some 1), w')) <-> validation_failure args)
  /\ (validation_failure args -> fst (main args w) = Ok (Some 1))
  /\ (~ validation_failure args ->
      fst (main args w) = Ok None \/ exists e, fst (main args w) = Raise e)
  /\ (forall v w', main args w = (Ok v, w') -> v = Some 1 \/ v = None).
Proof.
  destruct (main args w) as [r w1] eqn:Hrun. cbn [fst].
  destruct (main_log_growth args w w1 r Hrun)
    as [_ [(msg & -> & Hfail & _) | [(msg & -> & Hvalid & _) | (e & -> & Hvalid & _)]]].
  - split; [split; eauto |]. split; [reflexivity |].
    split; [contradiction |]. intros v w' [= <- _]. auto.
  - split; [split; [intros [w' [=]] | contradiction] |].
    split; [contradiction |]. split; [auto |]. intros v w' [= <- _]. auto.
  - split; [split; [intros [w' [=]] | contradiction] |].
    split; [contradiction |]. split; [eauto |]. intros v w' [=].
Qed.

(** X11: a run of [main] that returns, with whatever value, has appended
    exactly one record to the log. *)
Theorem main_logs_one_record (args : Namespace.t) (w w' : world)
    (v : option Z) :
  main args w = (Ok v, w') ->
  exists entry, log w' = log w ++ [entry].
Proof.
  intros Hrun.
  destruct (main_log_growth args w w' _ Hrun)
    as [_ [(msg & _ & _ & _ & Hlog) | [(msg & _ & _ & Hlog) | (e & [=] & _)]]];
    eauto.
Qed.

(** X12: apart from the log file, to which it only appends, [main] never
    removes or alters what exists: every file and directory present
    before a run is still there, unchanged, after it, however the run
    ends, and the records already in the log are kept in front of what
    the run adds. *)
Theorem main_keeps_existing (args : Namespace.t) (w w' : world)
    (r : res (option Z)) :
  main args w = (r, w') ->
  (forall (q : path) (x : node), fs w !! q = Some x -> fs w' !! q = Some x)
  /\ exists added, log w' = log w ++ added.
Proof.
  intros Hrun.
  destruct (main_log_growth args w w' r Hrun)
    as [Hkeep [(msg & _ & _ & _ & Hlog) | [(msg & _ & _ & Hlog) | (e & _ & _ & Hlog)]]];
    (split; [exact Hkeep |]).
  - eauto.
  - eauto.
  - exists []. rewrite app_nil_r. exact Hlog.
Qed.

(** X13: with validated dimensions and colour, when the placeholder is
    not there and the directory can be created, [main] ends normally
    having added exactly one file, named by the decimal form of the
    width, [_x_], the decimal form of the height and [.jpg], holding the
    encoding of the crossed bitmap filled from the number the colour
    string writes, and one record saying where it was saved. *)
Theorem main_renders_when_absent (args : Namespace.t) (d : Z * Z)
    (w wm : world) :
  resolved args d ->
  validate_hex_color (Namespace.color args) = true ->
  Path_mkdir (Namespace.out args ++ ["placeholders"]) w = (Ok tt, wm) ->
  let file :=
    (Namespace.out args ++ ["placeholders"])
    ++ [pretty (fst d) +:+ "_x_" +:+ pretty (snd d) +:+ ".jpg"] in
  fs w !! file = None ->
  exists n data,
    PyInt.int16 (str_replace "#" "0x" (Namespace.color args)) = Ok n
    /\ jpeg_encode (crossed (generator_for args d n) (frame_for args d n))
       = Ok data
    /\ main args w
       = (Ok None,
          World (<[file := File data]> (fs wm))
            (log w ++ [(INFO, "Saved placeholder image @ "
                              +:+ String.concat "/" file)])).
Proof.
  intros Hd Hc Hmk file Hnone.
  destruct (main_after_mkdir args d w wm Hd Hc Hmk) as (n & data & Hint & Henc & Hrun).
  apply mkdirs_keeps in Hmk as (Hlog & _ & Hframe).
  change file with (target_for args d) in Hnone.
  rewrite (Hframe (target_for args d)), Hnone in Hrun
    by (intros k; apply target_not_prefix).
  exists n, data. split; [exact Hint |]. split; [exact Henc |].
  rewrite Hrun. unfold rendered, emit. cbn [fs log]. rewrite Hlog. reflexivity.
Qed.

(** X14: a directory that bears the placeholder's name does not count as
    a cached placeholder: [main] goes on to render and the write raises
    [IsADirectoryError], no file being written and nothing logged. *)
Theorem main_directory_in_the_way (args : Namespace.t) (d : Z * Z)
    (w wm : world) :
  resolved args d ->
  validate_hex_color (Namespace.color args) = true ->
  Path_mkdir (Namespace.out args ++ ["placeholders"]) w = (Ok tt, wm) ->
  fs w !! target_for args d = Some Dir ->
  placeholder_exists (fst d) (snd d) (Namespace.out args ++ ["placeholders"]) (fs wm)
  = Ok false
  /\ main args w = (Raise IsADirectoryError, wm)
  /\ log wm = log w.
Proof.
  intros Hd Hc Hmk Hdir.
  destruct (main_after_mkdir args d w wm Hd Hc Hmk) as (n & data & Hint & _ & Hrun).
  apply mkdirs_keeps in Hmk as (Hlog & Hkeep & _).
  apply Hkeep in Hdir. rewrite Hdir in Hrun.
  split; [| split; [exact Hrun | exact Hlog]].
  destruct (resolved_writable args d Hd) as [Hsw Hsh].
  destruct (placeholder_exists_spec (fst d) (snd d)
              (Namespace.out args ++ ["placeholders"]) (fs wm) Hsw Hsh)
    as (b & -> & Hiff & _).
  destruct b; [| reflexivity].
  destruct (proj1 Hiff eq_refl) as [_ [old Hfile]].
  unfold target_for in Hdir. congruence.
Qed.

(** X15: when [out/placeholders] exists as a regular file (its ancestors
    being directories), [main] raises [FileExistsError] at the directory
    creation, leaving file system and log as they were. *)
Theorem main_placeholders_is_a_file (args : Namespace.t) (d : Z * Z)
    (w : world) (data : list Byte.byte) :
  resolved args d ->
  validate_hex_color (Namespace.color args) = true ->
  (forall k : nat, (k < length (Namespace.out args ++ ["placeholders"]))%nat ->
     fs w !! take k (Namespace.out args ++ ["placeholders"]) = Some Dir) ->
  fs w !! (Namespace.out args ++ ["placeholders"]) = Some (File data) ->
  main args w = (Raise FileExistsError, w).
Proof.
  intros Hd Hc Hdirs Hfile.
  apply (main_mkdir_raise args d w w FileExistsError Hd Hc).
  unfold Path_mkdir. apply (mkdirs_leaf_file _ [] w data); assumption.
Qed.
End EntryTheorems.

Section EntryEdges.
Context `{PIL}.

(** X16: in size mode a width or height that is absent or 0 is reported
    as missing: [main] logs "Missing width or height" and returns 1, a 0
    never reaching the range check. *)
Theorem main_zero_dimension_is_missing (args : Namespace.t) (w : world) :
  Namespace.option args = "size" ->
  truthy (Namespace.width args) = false \/ truthy (Namespace.height args) = false ->
  main args w = (Ok (Some 1), emit ERROR "Missing width or height" w).
Proof.
  intros Ho Hmiss. unfold main, main_match, DimmentionOptions.SIZE.
  rewrite bind_unfold, Ho. cbn [String.eqb Ascii.eqb Bool.eqb].
  replace (truthy (Namespace.width args) && truthy (Namespace.height args))
    with false
    by (destruct Hmiss as [-> | ->]; [| rewrite andb_false_r]; reflexivity).
  reflexivity.
Qed.

(** X17: the arguments of the other mode are ignored: in size mode the
    run does not depend on [--ratio], in ratio mode it depends on neither
    [--width] nor [--height]. *)
Theorem main_ignores_other_mode (args : Namespace.t) (w : world) :
  (Namespace.option args = "size" ->
   forall ratio,
     main (Namespace.mk (Namespace.width args) (Namespace.height args) ratio
             (Namespace.color args) (Namespace.out args) (Namespace.option args)) w
     = main args w)
  /\ (Namespace.option args = "ratio" ->
      forall width height,
        main (Namespace.mk width height (Namespace.ratio args)
                (Namespace.color args) (Namespace.out args) (Namespace.option args)) w
        = main args w).
Proof.
  destruct args as [wd ht ra co ou op]. cbn [Namespace.width Namespace.height
    Namespace.ratio Namespace.color Namespace.out Namespace.option].
  split; intros -> **; reflexivity.
Qed.

(** X18: the branch that handles [IndexError] in ratio mode is never
    taken: whatever the arguments and however the run ends, what [main]
    adds to the log does not contain the record
    "Missing width or height ratio". *)
Theorem main_never_logs_missing_ratio (args : Namespace.t) (w w' : world)
    (r : res (option Z)) :
  main args w = (r, w') ->
  exists added,
    log w' = log w ++ added
    /\ (ERROR, "Missing width or height ratio") ∉ added.
Proof.
  intros Hrun.
  destruct (main_log_growth args w w' r Hrun)
    as [_ [(msg & _ & _ & Hmsg & Hlog) | [(msg & _ & _ & Hlog) | (e & _ & _ & Hlog)]]].
  - exists [(ERROR, msg)]. split; [exact Hlog |].
    intros Hin. apply list_elem_of_singleton in Hin. congruence.
  - exists [(INFO, msg)]. split; [exact Hlog |].
    intros Hin. apply list_elem_of_singleton in Hin. discriminate.
  - exists []. split; [rewrite app_nil_r; exact Hlog |].
    apply not_elem_of_nil.
Qed.

(** X19: the generator does not create its directory: when [save_root]
    does not exist, [start] raises [FileNotFoundError] at the save, with
    nothing written and nothing logged. *)
Theorem start_without_directory (self : ImageGenerator.t) (w : world) :
  0 <= ImageGenerator.width self -> 0 <= ImageGenerator.height self ->
  fs w !! ImageGenerator.save_root self = None ->
  ImageGenerator.start self w = (Raise FileNotFoundError, w).
Proof.
  intros Hw Hh Hroot. rewrite start_unfold.
  rewrite Image_new_ok by (cbn [fst snd]; assumption). cbv zeta.
  rewrite (Image_save_no_directory _ _ _ w Hroot). reflexivity.
Qed.

(** X20: what [start] saves, the cache check finds: after a successful
    [start], [placeholder_exists] for the generator's dimensions and
    directory answers true. *)
Theorem start_then_placeholder_exists (self self' : ImageGenerator.t)
    (w w' : world) :
  ImageGenerator.start self w = (Ok self', w') ->
  placeholder_exists (ImageGenerator.width self) (ImageGenerator.height self)
    (ImageGenerator.save_root self) (fs w')
  = Ok true.
Proof.
  intros Hrun. rewrite start_unfold in Hrun.
  destruct (Image.new _ _) as [frame | e] eqn:Hnew; [| discriminate].
  cbv zeta in Hrun.
  destruct (Image_save _ _ w) as [[[] | e] ws] eqn:Hsave; [| discriminate].
  apply Image_save_inv in Hsave as (data & Henc & Hroot & _ & ->).
  injection Hrun as _ <-.
  apply Image_new_size in Hnew as (Hfw & Hfh & Hw0 & Hh0).
  cbn [fst snd] in Hfw, Hfh, Hw0, Hh0.
  assert (Hsides : ImageGenerator.width self <= 65535
                   /\ ImageGenerator.height self <= 65535).
  { destruct (crossed_size self frame) as [Hcw Hch].
    destruct (Z.le_gt_cases (ImageGenerator.width self) 65535) as [Hw |];
      [destruct (Z.le_gt_cases (ImageGenerator.height self) 65535) as [Hh |];
       [split; assumption |] |];
      (destruct (jpeg_encode_limit (crossed self frame)) as [e He];
       [rewrite Hcw, Hch, Hfw, Hfh; lia | congruence]). }
  destruct (placeholder_exists_spec (ImageGenerator.width self)
              (ImageGenerator.height self) (ImageGenerator.save_root self)
              (fs (emit INFO
                     ("Saved placeholder image @ " +:+
                      as_posix (ImageGenerator.save_root self ++
                        [artifact_name (ImageGenerator.width self)
                           (ImageGenerator.height self)]))
                     (World (<[ImageGenerator.save_root self ++
                               [artifact_name (ImageGenerator.width self)
                                  (ImageGenerator.height self)]
                               := File data]> (fs w))
                        (log w)))))
    as (b & Hb & Hiff & _); [apply small_writable; lia | apply small_writable; lia |].
  rewrite Hb. f_equal. apply Hiff. cbn [emit fs]. split.
  - rewrite lookup_insert_ne; [exact Hroot |].
    intros Heq. apply (f_equal length) in Heq.
    rewrite length_app in Heq. cbn in Heq. lia.
  - eexists. apply lookup_insert_eq.
Qed.

End EntryEdges.

(** ** Runs on concrete inputs *)

Lemma main_zero_dimension_is_missing_witness :
  main (Namespace.mk (Some 0) (Some 600) None "#96b08a" ["out"] "size")
    (World ∅ [])
  = (Ok (Some 1), emit ERROR "Missing width or height" (World ∅ [])).
Proof.
  apply (main_zero_dimension_is_missing
           (Namespace.mk (Some 0) (Some 600) None "#96b08a" ["out"] "size")).
  - reflexivity.
  - left. reflexivity.
Defined.

Lemma main_ignores_other_mode_witness :
  main (Namespace.mk (Some 0) (Some 600) (Some [7]) "#96b08a" ["out"] "size")
    (World ∅ [])
  = main (Namespace.mk (Some 0) (Some 600) None "#96b08a" ["out"] "size")
      (World ∅ []).
Proof.
  apply (proj1 (main_ignores_other_mode
                  (Namespace.mk (Some 0) (Some 600) None "#96b08a" ["out"] "size")
                  (World ∅ []))).
  reflexivity.
Defined.

Lemma start_without_directory_witness :
  ImageGenerator.start (ImageGenerator.__init__ 40 32 9875594 ["nowhere"])
    (World ∅ [])
  = (Raise FileNotFoundError, World ∅ []).
Proof.
  apply (start_without_directory
           (ImageGenerator.__init__ 40 32 9875594 ["nowhere"]) (World ∅ []));
    [cbn; lia | cbn; lia | reflexivity].
Defined.

Lemma start_then_placeholder_exists_witness :
  let self := ImageGenerator.__init__ 40 32 9875594 ["out"; "placeholders"] in
  let w := World (<[ ["out"; "placeholders"] := Dir ]> ∅) [] in
  placeholder_exists 40 32 ["out"; "placeholders"]
    (fs (snd (ImageGenerator.start self w)))
  = Ok true.
Proof.
  intros self w.
  apply (start_then_placeholder_exists self
           (ImageGenerator.set_image self
              (crossed self (Image.mk 40 32
                 (replicate (Z.to_nat (40 * 32)) (ImageGenerator.color self)))))
           w).
  vm_compute. reflexivity.
Defined.

Lemma dimmentions_keep_ratio_witness :
  exists wd ht,
    dimmentions_from_ratio (RatioTuple.mk 50 70) 100 = Ok (wd, ht)
    /\ wd * 70 = ht * 50
    /\ 0 <= wd <= 100 * 50 /\ 0 <= ht <= 100 * 70.
Proof.
  destruct (dimmentions_keep_ratio 50 70 100) as (wd & ht & Hrun & Hratio & Hle).
  exists wd, ht. split; [exact Hrun |]. split; [exact Hratio |].
  apply Hle; lia.
Defined.

Lemma main_match_dimensions_in_bounds_witness :
  World ∅ [] = World ∅ [] /\ 32 <= 1600 <= 4000 /\ 32 <= 900 <= 4000.
Proof.
  apply (main_match_dimensions_in_bounds
           (Namespace.mk None None (Some [16; 9]) "#96b08a" ["out"] "ratio")
           (World ∅ []) (World ∅ []) 1600 900).
  reflexivity.
Defined.

Lemma main_logs_one_record_witness :
  exists entry,
    log (emit ERROR "Invalid size 10x100" (World ∅ [])) = [] ++ [entry].
Proof.
  apply (main_logs_one_record
           (Namespace.mk (Some 10) (Some 100) None "#96b08a" ["out"] "size")
           (World ∅ []) _ (Some 1)).
  reflexivity.
Defined.

Lemma main_keeps_existing_witness :
  let args := Namespace.mk (Some 32) (Some 32) None "#96b08a" ["out"] "size" in
  fs (snd (main args (World sample_notes []))) !! ["out"; "notes.txt"]
  = Some (File [])
  /\ exists added, log (snd (main args (World sample_notes []))) = [] ++ added.
Proof.
  intros args.
  destruct (main_keeps_existing args (World sample_notes [])
              (snd (main args (World sample_notes [])))
              (fst (main args (World sample_notes [])))
              (surjective_pairing _)) as [Hkeep Hlog].
  split; [apply Hkeep; reflexivity | exact Hlog].
Defined.

Lemma main_renders_when_absent_witness :
  let args := Namespace.mk (Some 32) (Some 32) None "#96b08a" ["out"] "size" in
  exists data,
    jpeg_encode (crossed (generator_for args (32, 32) 9875594)
                   (frame_for args (32, 32) 9875594)) = Ok data
    /\ main args (World ∅ [])
       = (Ok None,
          World (<[ ["out"; "placeholders"; "32_x_32.jpg"] := File data ]>
                   (<[ ["out"; "placeholders"] := Dir ]>
                      (<[ ["out"] := Dir ]> (<[ [] := Dir ]> ∅))))
            [(INFO, "Saved placeholder image @ out/placeholders/32_x_32.jpg")]).
Proof.
  intros args.
  destruct (main_renders_when_absent args (32, 32) (World ∅ [])
              (snd (Path_mkdir ["out"; "placeholders"] (World ∅ []))))
    as (n & data & Hint & Henc & Hrun).
  - apply resolved_size; first [reflexivity | lia].
  - reflexivity.
  - reflexivity.
  - reflexivity.
  - assert (Hn : n = 9875594) by (vm_compute in Hint; congruence).
    subst n. exists data. split; [exact Henc |].
    rewrite Hrun. vm_compute. reflexivity.
Defined.

Lemma main_directory_in_the_way_witness :
  let args := Namespace.mk (Some 32) (Some 32) None "#96b08a" ["out"] "size" in
  let w := World sample_blocked [] in
  placeholder_exists 32 32 ["out"; "placeholders"] sample_blocked = Ok false
  /\ main args w = (Raise IsADirectoryError, w)
  /\ log w = log w.
Proof.
  intros args w.
  apply (main_directory_in_the_way args (32, 32) w w).
  - apply resolved_size; first [reflexivity | lia].
  - reflexivity.
  - reflexivity.
  - reflexivity.
Defined.

Lemma main_placeholders_is_a_file_witness :
  let args := Namespace.mk (Some 32) (Some 32) None "#96b08a" ["out"] "size" in
  main args (World sample_file_in_place [])
  = (Raise FileExistsError, World sample_file_in_place []).
Proof.
  intros args.
  apply (main_placeholders_is_a_file args (32, 32)
           (World sample_file_in_place []) []).
  - apply resolved_size; first [reflexivity | lia].
  - reflexivity.
  - intros [| [| k]] Hk; [reflexivity | reflexivity | cbn in Hk; lia].
  - reflexivity.
Defined.

Lemma main_never_logs_missing_ratio_witness :
  let args := Namespace.mk None None (Some [7]) "#96b08a" ["out"] "ratio" in
  exists added,
    log (snd (main args (World ∅ []))) = [] ++ added
    /\ (ERROR, "Missing width or height ratio") ∉ added.
Proof.
  intros args.
  apply (main_never_logs_missing_ratio args (World ∅ []) _
           (fst (main args (World ∅ [])))).
  apply surjective_pairing.
Defined.

Lemma main_returns_1_iff_witness :
  let args := Namespace.mk (Some 10) (Some 100) None "#96b08a" ["out"] "size" in
  validation_failure args
  /\ fst (main args (World ∅ [])) = Ok (Some 1).
Proof.
  intros args.
  destruct (main_returns_1_iff args (World ∅ [])) as (Hiff & Hfail & _).
  assert (Hv : validation_failure args)
    by (apply Hiff; eexists; reflexivity).
  split; [exact Hv | exact (Hfail Hv)].
Defined.
